(** * External photoevaporation set-up for a DustPy simulation (setup_ext_pe.py)

    A shallow embedding of [setup_ext_pe.py]: the three set-up routines
    ([param_ext_pe_FRIED], [setup_ext_pe_FRIED], [setup_lostdust]) and the
    two callbacks ([dSigma_lostdust], [M_lostdust]) that the module hands to
    the host framework.

    The simulation object is a tree of named groups and fields.  The module
    only ever touches it through the host's registration interface
    (addgroup, addfield, attribute assignment, the update cycle and the
    integrator's instruction list), so that interface is modelled here as a
    handful of operations on the tree, threaded through a state-and-error
    monad.  Array entries are exact rationals: rounding is outside the
    model. *)

From Stdlib Require Import List String Bool Arith Lia QArith Lqa.
Import ListNotations.
Local Open Scope string_scope.
Local Open Scope Q_scope.
Local Open Scope list_scope.

Set Implicit Arguments.

(** ** Errors raised by the interpreter or by numpy *)

Inductive error : Type :=
| AttributeError (name : string)
| KeyError (name : string)
| IndexError
| ValueError
| TypeError
| RuntimeError (msg : string)
| ConfigurationError.

Definition result (A : Type) : Type := (error + A)%type.

Definition ok {A} (a : A) : result A := inr a.
Definition raise {A} (e : error) : result A := inl e.

Definition rbind {A B} (r : result A) (k : A -> result B) : result B :=
  match r with
  | inl e => inl e
  | inr a => k a
  end.

(** ** Arrays

    The module handles numpy scalars, vectors (one entry per radial cell)
    and matrices (radial cell by dust species). *)

Module Np.

Inductive value : Type :=
| VScalar (x : Q)
| VArray1 (a : list Q)
| VArray2 (m : list (list Q)).

Definition qsum (l : list Q) : Q := fold_right Qplus 0 l.

(** [np.zeros_like] *)
Definition zeros_like (v : value) : value :=
  match v with
  | VScalar _ => VScalar 0
  | VArray1 a => VArray1 (map (fun _ => 0) a)
  | VArray2 m => VArray2 (map (map (fun _ => 0)) m)
  end.

(** unary minus *)
Definition neg (v : value) : value :=
  match v with
  | VScalar x => VScalar (- x)
  | VArray1 a => VArray1 (map Qopp a)
  | VArray2 m => VArray2 (map (map Qopp) m)
  end.

(** [v[-1]] *)
Definition last_item (v : value) : result value :=
  match v with
  | VScalar _ => raise IndexError
  | VArray1 a =>
      match rev a with
      | [] => raise IndexError
      | x :: _ => ok (VScalar x)
      end
  | VArray2 m =>
      match rev m with
      | [] => raise IndexError
      | r :: _ => ok (VArray1 r)
      end
  end.

(** [v.sum(-1)]: the sum over the last axis. *)
Definition sum_last (v : value) : value :=
  match v with
  | VScalar x => VScalar x
  | VArray1 a => VScalar (qsum a)
  | VArray2 m => VArray1 (map qsum m)
  end.

(** [v.sum()]: the sum of all entries. *)
Definition sum (v : value) : value :=
  match v with
  | VScalar x => VScalar x
  | VArray1 a => VScalar (qsum a)
  | VArray2 m => VScalar (qsum (map qsum m))
  end.

(** Broadcasting of a binary operation along one axis: equal lengths
    are combined entry by entry, a length-one operand is stretched, and
    anything else does not broadcast. *)
Fixpoint zip_with (op : Q -> Q -> Q) (a b : list Q) : list Q :=
  match a, b with
  | x :: a', y :: b' => op x y :: zip_with op a' b'
  | _, _ => []
  end.

Definition bcast1 (op : Q -> Q -> Q) (a b : list Q) : result (list Q) :=
  if Nat.eqb (List.length a) (List.length b) then ok (zip_with op a b)
  else match a, b with
       | [x], _ => ok (map (op x) b)
       | _, [y] => ok (map (fun x => op x y) a)
       | _, _ => raise ValueError
       end.

Fixpoint all_ok {A} (l : list (result A)) : result (list A) :=
  match l with
  | [] => ok []
  | r :: l' => rbind r (fun a => rbind (all_ok l') (fun t => ok (a :: t)))
  end.

Fixpoint zip_rows (op : Q -> Q -> Q) (m n : list (list Q))
  : list (result (list Q)) :=
  match m, n with
  | r :: m', s :: n' => bcast1 op r s :: zip_rows op m' n'
  | _, _ => []
  end.

Definition bcast2 (op : Q -> Q -> Q) (m n : list (list Q))
  : result (list (list Q)) :=
  if Nat.eqb (List.length m) (List.length n) then all_ok (zip_rows op m n)
  else match m, n with
       | [r], _ => all_ok (map (bcast1 op r) n)
       | _, [s] => all_ok (map (fun r => bcast1 op r s) m)
       | _, _ => raise ValueError
       end.

Definition binop (op : Q -> Q -> Q) (u v : value) : result value :=
  match u, v with
  | VScalar x, VScalar y => ok (VScalar (op x y))
  | VScalar x, VArray1 b => ok (VArray1 (map (op x) b))
  | VArray1 a, VScalar y => ok (VArray1 (map (fun x => op x y) a))
  | VScalar x, VArray2 n => ok (VArray2 (map (map (op x)) n))
  | VArray2 m, VScalar y => ok (VArray2 (map (map (fun x => op x y)) m))
  | VArray1 a, VArray1 b => rbind (bcast1 op a b) (fun c => ok (VArray1 c))
  | VArray1 a, VArray2 n =>
      rbind (all_ok (map (bcast1 op a) n)) (fun c => ok (VArray2 c))
  | VArray2 m, VArray1 b =>
      rbind (all_ok (map (fun r => bcast1 op r b) m)) (fun c => ok (VArray2 c))
  | VArray2 m, VArray2 n => rbind (bcast2 op m n) (fun c => ok (VArray2 c))
  end.

Definition mul : value -> value -> result value := binop Qmult.
Definition add : value -> value -> result value := binop Qplus.
Definition div : value -> value -> result value := binop Qdiv.

(** Shapes, and the host's in-place assignment [field[...] = v], which
    keeps the shape of the field and broadcasts the new value into it. *)
Definition fill (shape : value) (x : Q) : value :=
  match shape with
  | VScalar _ => VScalar x
  | VArray1 a => VArray1 (map (fun _ => x) a)
  | VArray2 m => VArray2 (map (map (fun _ => x)) m)
  end.

Definition assign_row (old new : list Q) : result (list Q) :=
  if Nat.eqb (List.length old) (List.length new) then ok new
  else match new with
       | [x] => ok (map (fun _ => x) old)
       | _ => raise ValueError
       end.

Fixpoint assign_rows (m n : list (list Q)) : list (result (list Q)) :=
  match m, n with
  | r :: m', s :: n' => assign_row r s :: assign_rows m' n'
  | _, _ => []
  end.

Definition assign (old new : value) : result value :=
  match new with
  | VScalar x | VArray1 [x] | VArray2 [[x]] => ok (fill old x)
  | VArray1 b =>
      match old with
      | VScalar _ => raise ValueError
      | VArray1 a => rbind (assign_row a b) (fun c => ok (VArray1 c))
      | VArray2 m =>
          rbind (all_ok (map (fun r => assign_row r b) m))
                (fun c => ok (VArray2 c))
      end
  | VArray2 n =>
      match old with
      | VScalar _ => raise ValueError
      | VArray1 a =>
          match n with
          | [b] => rbind (assign_row a b) (fun c => ok (VArray1 c))
          | _ => raise ValueError
          end
      | VArray2 m =>
          if Nat.eqb (List.length m) (List.length n)
          then rbind (all_ok (assign_rows m n)) (fun c => ok (VArray2 c))
          else match n with
               | [b] => rbind (all_ok (map (fun r => assign_row r b) m))
                              (fun c => ok (VArray2 c))
               | _ => raise ValueError
               end
      end
  end.

(** [(v == 0).all()] *)
Definition is_zero (x : Q) : bool := Qeq_bool x 0.

Definition all_zero (v : value) : bool :=
  match v with
  | VScalar x => is_zero x
  | VArray1 a => forallb is_zero a
  | VArray2 m => forallb (forallb is_zero) m
  end.

(** [np.linspace start stop num] has [num] points, the last one being
    [stop] itself. *)
Definition linspace (start stop : Q) (num : nat) : list Q :=
  match num with
  | O => []
  | S O => [start]
  | S n =>
      let step := (stop - start) / inject_Z (Z.of_nat n) in
      map (fun k => inject_Z (Z.of_nat k) * step + start) (seq 0 n) ++ [stop]
  end.

End Np.

Import Np.

(** ** The simulation object

    A frame is a tree.  A group carries a description, an optional update
    order (the names of the members its update cycle walks through) and
    its members in the order they were added; a field carries a value and
    the callbacks registered on it; any other attribute set on a group is
    a plain Python attribute. *)

Definition path : Type := list string.

(** Callables handed to the host.  The three FRIED updaters live in
    [functions_ext_pe]; this module only registers them. *)
Inductive updater_fn : Type :=
| LimitInRadius
| TruncationRadius
| MassLoss_FRIED
| M_lostdust_fn
| HostUpdater (name : string).

Inductive differentiator_fn : Type :=
| dSigma_lostdust_fn
| HostDifferentiator (name : string).

Inductive scheme : Type :=
| expl_1_euler
| HostScheme (name : string).

Record Field : Type := mkField {
  f_value : value;
  f_updater : option updater_fn;
  f_differentiator : option differentiator_fn;
  f_description : string;
  f_constant : bool;
  f_save : bool
}.

(** The interpolator returned by [get_MassLoss_ResampleGrid]: a closure
    from (radius, surface density) to a log10 mass-loss rate. *)
Definition Interpolator : Type := Q -> Q -> Q.

Inductive pyobj : Type :=
| PValue (v : value)
| PInterpolator (f : Interpolator).

#[warnings="-register-all"]
Inductive node : Type :=
| NField (f : Field)
| NGroup (description : string) (updater : option (list string))
         (members : list (string * node))
| NAttr (o : pyobj).

Record Instruction : Type := mkInstruction {
  i_scheme : scheme;
  i_Y : path;
  i_description : string
}.

(** Calls that leave the module, in the order they happen. *)
Inductive event : Type :=
| EResample (Mstar_target UV_target : value)
| EUpdate (field : path) (u : updater_fn).

Record Frame : Type := mkFrame {
  root : node;
  integrator : option (list Instruction);
  trace : list event
}.

(** *** Members of a group: an insertion-ordered dictionary *)

Fixpoint lookup (k : string) (ms : list (string * node)) : option node :=
  match ms with
  | [] => None
  | (k', n) :: ms' => if String.eqb k k' then Some n else lookup k ms'
  end.

Fixpoint assoc_set (k : string) (n : node) (ms : list (string * node))
  : list (string * node) :=
  match ms with
  | [] => [(k, n)]
  | (k', n') :: ms' =>
      if String.eqb k k' then (k, n) :: ms' else (k', n') :: assoc_set k n ms'
  end.

(** *** Walking down a dotted path *)

Fixpoint get (p : path) (n : node) : result node :=
  match p with
  | [] => ok n
  | k :: p' =>
      match n with
      | NGroup _ _ ms =>
          match lookup k ms with
          | Some c => get p' c
          | None => raise (AttributeError k)
          end
      | _ => raise (AttributeError k)
      end
  end.

Fixpoint modify (p : path) (f : node -> result node) (n : node) : result node :=
  match p with
  | [] => f n
  | k :: p' =>
      match n with
      | NGroup d u ms =>
          match lookup k ms with
          | Some c => rbind (modify p' f c)
                            (fun c' => ok (NGroup d u (assoc_set k c' ms)))
          | None => raise (AttributeError k)
          end
      | _ => raise (AttributeError k)
      end
  end.

Definition get_field (p : path) (n : node) : result Field :=
  rbind (get p n) (fun c =>
    match c with
    | NField f => ok f
    | _ => raise TypeError
    end).

(** Reading an attribute as an array: a field or a plain array will do. *)
Definition get_value (p : path) (n : node) : result value :=
  rbind (get p n) (fun c =>
    match c with
    | NField f => ok (f_value f)
    | NAttr (PValue v) => ok v
    | _ => raise TypeError
    end).

(** ** The state-and-error monad the set-up routines run in *)

Definition M (A : Type) : Type := Frame -> result (A * Frame).

Definition ret {A} (a : A) : M A := fun s => ok (a, s).

Definition bind {A B} (c : M A) (k : A -> M B) : M B :=
  fun s => match c s with
           | inl e => inl e
           | inr (a, s') => k a s'
           end.

Definition lift {A} (r : result A) : M A :=
  fun s => match r with
           | inl e => inl e
           | inr a => ok (a, s)
           end.

Declare Scope monad_scope.
Delimit Scope monad_scope with monad.
Notation "x <- c ;; k" := (bind c (fun x => k))
  (at level 61, c at next level, right associativity) : monad_scope.
Notation "c ;; k" := (bind c (fun _ => k))
  (at level 61, right associativity) : monad_scope.
Local Open Scope monad_scope.

Definition read_root {A} (f : node -> result A) : M A :=
  fun s => lift (f (root s)) s.

Definition write_root (f : node -> result node) : M unit :=
  fun s => match f (root s) with
           | inl e => inl e
           | inr n => ok (tt, mkFrame n (integrator s) (trace s))
           end.

Definition emit (e : event) : M unit :=
  fun s => ok (tt, mkFrame (root s) (integrator s) (trace s ++ [e])).

(** *** The host's registration interface *)

Definition on_group (f : string -> option (list string) -> list (string * node)
                         -> result node) (n : node) : result node :=
  match n with
  | NGroup d u ms => f d u ms
  | _ => raise (AttributeError "__dict__")
  end.

Definition on_field (f : Field -> result Field) (n : node) : result node :=
  match n with
  | NField fld => rbind (f fld) (fun fld' => ok (NField fld'))
  | _ => raise TypeError
  end.

(** [g.addgroup(name, description=...)] *)
Definition addgroup (g : path) (name description : string) : M unit :=
  write_root (modify g (on_group (fun d u ms =>
    ok (NGroup d u (assoc_set name (NGroup description None []) ms))))).

(** [g.addfield(name, value, description=..., constant=..., save=...)].
    The value is stored as it is given.  The host holds a field of one
    entry as a scalar, never as a one-entry array: a simulation whose
    [grid.r] is a one-entry array is no state of the host, and the
    statements that promise a return ask for a grid of two cells or
    more (line 68 reads [grid.r[-1]]). *)
Definition addfield (g : path) (name : string) (v : value)
           (description : string) (constant save : bool) : M unit :=
  write_root (modify g (on_group (fun d u ms =>
    ok (NGroup d u
          (assoc_set name (NField (mkField v None None description constant save))
                     ms))))).

(** [g.updater = [name, ...]]: the host goes through the names in turn and
    refuses the assignment at the first one that is no attribute of the
    group; the group then keeps the update order it had. *)
Fixpoint check_update_order (order : list string) (ms : list (string * node))
  : result unit :=
  match order with
  | [] => ok tt
  | k :: order' =>
      match lookup k ms with
      | Some _ => check_update_order order' ms
      | None => raise (RuntimeError (k ++ " is not an attribute of the group")%string)
      end
  end.

Definition set_update_order (g : path) (order : list string) : M unit :=
  write_root (modify g (on_group (fun d _ ms =>
    rbind (check_update_order order ms)
          (fun _ => ok (NGroup d (Some order) ms))))).

(** [field.updater = u] and [field.differentiator = d] *)
Definition set_field_updater (p : path) (u : updater_fn) : M unit :=
  write_root (modify p (on_field (fun f =>
    ok (mkField (f_value f) (Some u) (f_differentiator f)
                (f_description f) (f_constant f) (f_save f))))).

Definition set_field_differentiator (p : path) (d : differentiator_fn) : M unit :=
  write_root (modify p (on_field (fun f =>
    ok (mkField (f_value f) (f_updater f) (Some d)
                (f_description f) (f_constant f) (f_save f))))).

(** The host's write to a field: constant fields refuse it, and the field
    keeps its shape. *)
Definition setvalue (v : value) (f : Field) : result Field :=
  if f_constant f then raise (RuntimeError "Field is constant.")
  else rbind (Np.assign (f_value f) v) (fun v' =>
         ok (mkField v' (f_updater f) (f_differentiator f)
                     (f_description f) (f_constant f) (f_save f))).

Definition set_field_value (p : path) (v : value) : M unit :=
  write_root (modify p (on_field (setvalue v))).

(** [g.name = o]: an existing field is written to, anything else becomes
    (or replaces) a plain attribute. *)
Definition field_at (name : string) (ms : list (string * node)) : option Field :=
  match lookup name ms with
  | Some (NField f) => Some f
  | _ => None
  end.

Definition setattr (g : path) (name : string) (o : pyobj) : M unit :=
  write_root (modify g (on_group (fun d u ms =>
    match field_at name ms with
    | Some f =>
        match o with
        | PValue v =>
            rbind (setvalue v f)
                  (fun f' => ok (NGroup d u (assoc_set name (NField f') ms)))
        | PInterpolator _ => raise TypeError
        end
    | None => ok (NGroup d u (assoc_set name (NAttr o) ms))
    end))).

(** [sim.integrator.instructions.append(i)] *)
Definition append_instruction (i : Instruction) : M unit :=
  fun s => match integrator s with
           | None => raise (AttributeError "instructions")
           | Some l => ok (tt, mkFrame (root s) (Some (l ++ [i])) (trace s))
           end.

Definition read (p : path) : M value := read_root (get_value p).
Definition read_field (p : path) : M Field := read_root (get_field p).

(** ** The lost-dust callbacks (setup_ext_pe.py, lines 105-112) *)

(** [dSigma_lostdust(sim, x, Y)] *)
Definition dSigma_lostdust {X Y : Type} (x : X) (y : Y) : M value :=
  ext <- read ["dust"; "S"; "ext"] ;;
  ret (Np.neg ext).

(** [M_lostdust(sim)] *)
Definition M_lostdust : M value :=
  A <- read ["grid"; "A"] ;;
  Sigma <- read ["lostdust"; "Sigma"] ;;
  prod <- lift (Np.mul A (Np.sum_last Sigma)) ;;
  ret (Np.sum prod).

(** ** The host's update cycle

    Updating a group walks through its update order and updates each named
    member; updating a field calls its updater, if it has one, and writes
    the returned value into the field.  The walk only ever changes field
    values, so the fields it visits can be listed beforehand. *)

Fixpoint concat_ok {A} (l : list (result (list A))) : result (list A) :=
  match l with
  | [] => ok []
  | r :: l' => rbind r (fun a => rbind (concat_ok l') (fun t => ok (a ++ t)))
  end.

Definition lookup_plan (plans : list (string * result (list path))) (k : string)
  : result (list path) :=
  match find (fun kp => String.eqb k (fst kp)) plans with
  | Some kp => snd kp
  | None => raise (KeyError k)
  end.

Fixpoint update_plan (pre : path) (n : node) {struct n} : result (list path) :=
  match n with
  | NField _ => ok [pre]
  | NAttr _ => raise (AttributeError "update")
  | NGroup _ None _ => ok []
  | NGroup _ (Some order) ms =>
      let plans :=
        map (fun kc : string * node =>
               let (k, c) := kc in (k, update_plan (pre ++ [k]) c)) ms in
      concat_ok (map (lookup_plan plans) order)
  end.

Fixpoint for_each {A} (f : A -> M unit) (l : list A) : M unit :=
  match l with
  | [] => ret tt
  | a :: l' => f a ;; for_each f l'
  end.

Section Setup.

(** What the module imports.  [functions_ext_pe] holds the resampler and
    the three FRIED updaters; every updater is a function of the current
    simulation state that returns the new value of its field. *)
Variable M_sun : Q.
Variable pow10 : Q -> Q.
Variable module_dir : string.

Record ResampleArgs : Type := mkResampleArgs {
  fried_dir : string;
  fried_filenames : list string;
  Mstar_target : value;
  UV_target : value;
  grid_radii : list Q;
  grid_Sigma : list Q;
  grid_Sigma1AU : value
}.

Variable get_MassLoss_ResampleGrid
  : ResampleArgs -> result (list (list Q) * Interpolator).
Variable imported_updater : updater_fn -> node -> result value.

Definition call_updater (u : updater_fn) : M value :=
  match u with
  | M_lostdust_fn => M_lostdust
  | _ => read_root (imported_updater u)
  end.

(** [field.update()] *)
Definition update_field (p : path) : M unit :=
  f <- read_field p ;;
  match f_updater f with
  | None => ret tt
  | Some u =>
      emit (EUpdate p u) ;;
      v <- call_updater u ;;
      set_field_value p v
  end.

(** [g.update()] *)
Definition update (g : path) : M unit :=
  plan <- read_root (fun n => rbind (get g n) (update_plan g)) ;;
  for_each update_field plan.

(** ** param_ext_pe_FRIED (lines 11-15) *)

Definition param_ext_pe_FRIED (UV_Flux : value) : M unit :=
  addgroup [] "EPE" "external photoevaporation" ;;
  addgroup ["EPE"] "FRIED"
    "FRIED grid used to calculate mass loss rates due to external photoevaporation" ;;
  addfield ["EPE"; "FRIED"] "UV_Flux" UV_Flux "UV Flux [G_0]" true true.

Definition default_UV_Flux : value := VScalar 1000.

(** ** setup_ext_pe_FRIED (lines 17-94) *)

Definition default_fried_dir : string := (module_dir ++ "/FRIEDV2/")%string.

Definition default_fried_filenames : list string :=
  [ "FRIEDV2_0p1Msol_fPAH1p0_growth.dat";
    "FRIEDV2_0p3Msol_fPAH1p0_growth.dat";
    "FRIEDV2_0p6Msol_fPAH1p0_growth.dat";
    "FRIEDV2_1p0Msol_fPAH1p0_growth.dat";
    "FRIEDV2_1p5Msol_fPAH1p0_growth.dat";
    "FRIEDV2_3p0Msol_fPAH1p0_growth.dat" ].

Definition default_SigmaFloor : value := VScalar (1 # (10 ^ 100)).

Definition logspace (start stop : Q) (num : nat) : list Q :=
  map pow10 (Np.linspace start stop num).

Definition setup_grid_radii : list Q :=
  [5] ++ Np.linspace 10 1000 106.

Definition setup_grid_Sigma : list Q :=
  [1 # 100000000; 1 # 10000000; 1 # 1000000; 1 # 100000; 1 # 10000]
    ++ logspace (-3) 3 100 ++ [5000; 10000].

Definition FRIED : path := ["EPE"; "FRIED"].

Definition setup_ext_pe_FRIED (fried_dir : string) (fried_filenames : list string)
           (SigmaFloor : value) : M unit :=
  let grid_radii := setup_grid_radii in
  let grid_Sigma := setup_grid_Sigma in
  grid_Sigma1AU <- lift (Np.mul (VArray1 grid_Sigma) (VArray1 grid_radii)) ;;
  star_M <- read ["star"; "M"] ;;
  Mstar_target <- lift (Np.div star_M (VScalar M_sun)) ;;
  UV_target <- read (FRIED ++ ["UV_Flux"]) ;;
  emit (EResample Mstar_target UV_target) ;;
  resampled <- lift (get_MassLoss_ResampleGrid
                       (mkResampleArgs fried_dir fried_filenames
                          Mstar_target UV_target
                          grid_radii grid_Sigma grid_Sigma1AU)) ;;
  let (grid_MassLoss, grid_MassLoss_Interpolator) :=
    resampled : list (list Q) * Interpolator in
  addgroup FRIED "Table"
    "(Resampled) Table of the mass loss rates for a given radial-Sigma grid." ;;
  addfield (FRIED ++ ["Table"]) "radii" (VArray1 grid_radii)
    "Outer disk radius input to calculate FRIED mass loss rates [AU], (array, nr)"
    false true ;;
  addfield (FRIED ++ ["Table"]) "Sigma" (VArray1 grid_Sigma)
    "Surface density grid to calculate FRIED mass loss rates [g/cm^2] (array, nSigma)"
    false true ;;
  addfield (FRIED ++ ["Table"]) "MassLoss" (VArray2 grid_MassLoss)
    "FRIED Mass loss rates [log10 (M_sun/year)] (grid, nr*nSigma)"
    false true ;;
  setattr FRIED "_Interpolator" (PInterpolator grid_MassLoss_Interpolator) ;;
  r <- read ["grid"; "r"] ;;
  r_out <- lift (Np.last_item r) ;;
  addfield FRIED "rTrunc" r_out "Truncation radius [cm]" false true ;;
  r <- read ["grid"; "r"] ;;
  r_out <- lift (Np.last_item r) ;;
  addfield FRIED "rLim_in" r_out "Radius enclosing 0.9 disc mass [cm]" false true ;;
  r <- read ["grid"; "r"] ;;
  addfield FRIED "MassLoss" (Np.zeros_like r)
    "Mass loss rate obtained by interpolating the FRIED Table at each grid cell [g/s]"
    false true ;;
  set_field_updater (FRIED ++ ["rLim_in"]) LimitInRadius ;;
  set_field_updater (FRIED ++ ["rTrunc"]) TruncationRadius ;;
  set_field_updater (FRIED ++ ["MassLoss"]) MassLoss_FRIED ;;
  set_update_order FRIED ["rLim_in"; "rTrunc"; "MassLoss"] ;;
  gas_Sigma <- read ["gas"; "Sigma"] ;;
  addfield ["gas"; "S"] "EPE" (Np.zeros_like gas_Sigma)
    "Change in gas surface density through ext. photoevap" false true ;;
  dust_Sigma <- read ["dust"; "Sigma"] ;;
  addfield ["dust"; "S"] "EPE" (Np.zeros_like dust_Sigma)
    "Change in dust surface density through ext. photoevap" false true ;;
  setattr ["gas"] "SigmaFloor" (PValue SigmaFloor).

(** ** setup_lostdust (lines 115-148) *)

Definition lostdust_instruction : Instruction :=
  mkInstruction expl_1_euler ["lostdust"; "Sigma"]
                "Lost dust: explicit 1st-order Euler method".

Definition setup_lostdust (using_FRIED : bool) : M unit :=
  addgroup [] "lostdust" "Dust lost by photoevaporative entrainment" ;;
  dust_Sigma <- read ["dust"; "Sigma"] ;;
  addfield ["lostdust"] "Sigma" (Np.zeros_like dust_Sigma)
    "Lost dust surface density [g/cm²]" false true ;;
  addfield ["lostdust"] "M" (VScalar 0)
    "Total mass of lost dust [photoevaporationg]" false true ;;
  (if using_FRIED
   then set_update_order [] ["star"; "grid"; "FRIED"; "gas"; "dust"; "lostdust"]
   else set_update_order [] ["star"; "grid"; "gas"; "dust"; "lostdust"]) ;;
  set_update_order ["lostdust"] ["M"] ;;
  set_field_differentiator ["lostdust"; "Sigma"] dSigma_lostdust_fn ;;
  set_field_updater ["lostdust"; "M"] M_lostdust_fn ;;
  _ <- read_field ["lostdust"; "Sigma"] ;;
  append_instruction lostdust_instruction ;;
  update [].

End Setup.

(** ** A small simulation to run the routines on

    Two radial cells and two dust species, laid out the way the host
    initialises a simulation: [star], [grid], [gas] and [dust] groups, the
    source-term groups [gas.S] and [dust.S], and an integrator that already
    advances the gas and dust surface densities. *)

Module Example.

Definition fld (v : value) : node := NField (mkField v None None "" false true).

Definition host_field (v : value) (u : string) : node :=
  NField (mkField v (Some (HostUpdater u)) None "" false true).

Definition dust_S_ext : value := VArray2 [[-3; 0]; [0; -(1 # 2)]].

Definition sim0_root : node :=
  NGroup "DustPy simulation" (Some ["star"; "grid"; "gas"; "dust"])
    [ ("star", NGroup "Star" None [("M", fld (VScalar 2))]);
      ("grid", NGroup "Grid" None
                 [("r", fld (VArray1 [10; 20])); ("A", fld (VArray1 [3; 5]))]);
      ("gas", NGroup "Gas" (Some ["S"])
                [("Sigma", fld (VArray1 [7; 0]));
                 ("SigmaFloor", fld (VArray1 [1 # 1000; 1 # 1000]));
                 ("S", NGroup "Sources" (Some ["ext"])
                         [("ext", host_field (VArray1 [0; 0]) "gas.S.ext")])]);
      ("dust", NGroup "Dust" (Some ["S"])
                 [("Sigma", fld (VArray2 [[1; 2]; [3; 4]]));
                  ("S", NGroup "Sources" (Some ["ext"])
                          [("ext", host_field dust_S_ext "dust.S.ext")])]) ].

Definition host_instructions : list Instruction :=
  [ mkInstruction (HostScheme "impl_1_direct") ["dust"; "Sigma"] "Dust";
    mkInstruction (HostScheme "impl_1_direct") ["gas"; "Sigma"] "Gas" ].

Definition sim0 : Frame := mkFrame sim0_root (Some host_instructions) [].

(** The same simulation with a top-level [FRIED] group as well. *)
Definition sim0_legacy : Frame :=
  match sim0_root with
  | NGroup d u ms =>
      mkFrame (NGroup d u (ms ++ [("FRIED", NGroup "FRIED" None [])]))
              (Some host_instructions) []
  | _ => sim0
  end.

(** Stand-ins for what the module imports. *)
Definition M_sun : Q := 2.
Definition pow10 (x : Q) : Q := 1.
Definition interp : Interpolator := fun r Sigma => - (10).
Definition table : list (list Q) := [[-(10); -(8)]; [-(9); -(7)]].

Definition resample (a : ResampleArgs) : result (list (list Q) * Interpolator) :=
  ok (table, interp).

Definition imported (u : updater_fn) (n : node) : result value :=
  match u with
  | LimitInRadius => ok (VScalar 15)
  | TruncationRadius => ok (VScalar 18)
  | MassLoss_FRIED => ok (VArray1 [0; 1])
  | M_lostdust_fn => raise TypeError
  | HostUpdater name =>
      if String.eqb name "dust.S.ext" then ok dust_S_ext else ok (VScalar 0)
  end.

Definition setup_FRIED : M unit :=
  bind (param_ext_pe_FRIED default_UV_Flux)
       (fun _ => setup_ext_pe_FRIED M_sun pow10 resample
                   (default_fried_dir "/opt/epe") default_fried_filenames
                   default_SigmaFloor).

Definition host_differentiator (name : string) (n : node) : result value :=
  raise (KeyError name).

(** An increasing stand-in for [10 ** x] that stays within the fixed
    entries of the surface-density axis. *)
Definition pow10_affine (x : Q) : Q := x + 4.

Definition run (c : M unit) (s : Frame) : Frame :=
  match c s with
  | inr (_, s') => s'
  | inl _ => s
  end.

(** After [param_ext_pe_FRIED]; after the FRIED set-up; after the
    lost-dust set-up as well; and some way into a run, with dust already
    lost from both cells. *)
Definition sim_param : Frame := run (param_ext_pe_FRIED default_UV_Flux) sim0.

Definition setup_ext_pe_FRIED_default : M unit :=
  setup_ext_pe_FRIED M_sun pow10 resample
    (default_fried_dir "/opt/epe") default_fried_filenames default_SigmaFloor.

Definition sim_FRIED : Frame := run setup_ext_pe_FRIED_default sim_param.

Definition sim_lostdust : Frame :=
  run (setup_lostdust imported false) sim_FRIED.

Definition sim_running : Frame :=
  run (set_field_value ["lostdust"; "Sigma"] (VArray2 [[1; 2]; [3; 4]]))
      sim_lostdust.

Definition sim_legacy_FRIED : Frame := run setup_FRIED sim0_legacy.

Definition sim_legacy_lostdust : Frame :=
  run (setup_lostdust imported true) sim_legacy_FRIED.

End Example.

(** ** Vocabulary for the statements below *)

(** The total lost mass the way it is described: every cell contributes
    its area times the surface density of each species in it. *)
Fixpoint area_weighted_sum (A : list Q) (Sigma : list (list Q)) : Q :=
  match A, Sigma with
  | a :: A', row :: Sigma' =>
      Np.qsum (map (fun sigma => a * sigma) row) + area_weighted_sum A' Sigma'
  | _, _ => 0
  end.

(** Running a registered differentiator. *)
Definition call_differentiator {X Y : Type}
           (host : string -> node -> result value)
           (d : differentiator_fn) (x : X) (y : Y) : M value :=
  match d with
  | dSigma_lostdust_fn => dSigma_lostdust x y
  | HostDifferentiator name => read_root (host name)
  end.

(** How often the resampler was called. *)
Definition is_resample (e : event) : bool :=
  match e with
  | EResample _ _ => true
  | EUpdate _ _ => false
  end.

Definition resample_calls (t : list event) : nat :=
  List.length (filter is_resample t).

(** Two fields that differ at most in their value. *)
Definition same_registration (f f' : Field) : Prop :=
  f_updater f' = f_updater f /\
  f_differentiator f' = f_differentiator f /\
  f_description f' = f_description f /\
  f_constant f' = f_constant f /\
  f_save f' = f_save f.

(** [n] update cycles of the group at [g] ([[]] is the whole simulation),
    one after the other. *)
Fixpoint update_cycles (imported : updater_fn -> node -> result value)
         (g : path) (n : nat) : M unit :=
  match n with
  | O => ret tt
  | S n' => update imported g ;; update_cycles imported g n'
  end.

(** The resampled table and the interpolator, where the set-up puts them. *)
Definition FRIED_table_is (pow10 : Q -> Q) (s : Frame)
           (tbl : list (list Q)) (itp : Interpolator) : Prop :=
  get_value (FRIED ++ ["Table"; "radii"]) (root s) = ok (VArray1 setup_grid_radii)
  /\ get_value (FRIED ++ ["Table"; "Sigma"]) (root s)
     = ok (VArray1 (setup_grid_Sigma pow10))
  /\ get_value (FRIED ++ ["Table"; "MassLoss"]) (root s) = ok (VArray2 tbl)
  /\ get (FRIED ++ ["_Interpolator"]) (root s) = ok (NAttr (PInterpolator itp)).

(** The fields [setup_ext_pe_FRIED] registers. *)
Definition FRIED_fields : list path :=
  [ FRIED ++ ["Table"; "radii"]; FRIED ++ ["Table"; "Sigma"];
    FRIED ++ ["Table"; "MassLoss"];
    FRIED ++ ["rTrunc"]; FRIED ++ ["rLim_in"]; FRIED ++ ["MassLoss"];
    ["gas"; "S"; "EPE"]; ["dust"; "S"; "EPE"] ].

(** A member [k] of a group that is a field with the given value,
    updater and differentiator. *)
Definition has_field (ms : list (string * node)) (k : string) (v : value)
           (u : option updater_fn) (d : option differentiator_fn) : Prop :=
  exists f, lookup k ms = Some (NField f)
            /\ f_value f = v /\ f_updater f = u /\ f_differentiator f = d.

(** What [setup_ext_pe_FRIED] has read, called and registered by the time
    it returns [s'] from [s]. *)
Inductive setup_ext_pe_FRIED_post (M_sun : Q) (pow10 : Q -> Q)
          (resample : ResampleArgs -> result (list (list Q) * Interpolator))
          (dir : string) (files : list string) (s s' : Frame) : Prop :=
| FRIED_post (star_M Mstar UV Sigma1AU r r_out gas_Sigma dust_Sigma : value)
             (tbl : list (list Q)) (itp : Interpolator)
             (dF dT dgS ddS : string) (ugS udS : option (list string))
             (msF msT msgS msdS : list (string * node)) :
    Np.mul (VArray1 (setup_grid_Sigma pow10)) (VArray1 setup_grid_radii)
    = ok Sigma1AU ->
    get_value ["star"; "M"] (root s) = ok star_M ->
    Np.div star_M (VScalar M_sun) = ok Mstar ->
    get_value (FRIED ++ ["UV_Flux"]) (root s) = ok UV ->
    resample (mkResampleArgs dir files Mstar UV setup_grid_radii
                             (setup_grid_Sigma pow10) Sigma1AU)
    = ok (tbl, itp) ->
    get_value ["grid"; "r"] (root s) = ok r ->
    Np.last_item r = ok r_out ->
    get_value ["gas"; "Sigma"] (root s) = ok gas_Sigma ->
    get_value ["dust"; "Sigma"] (root s) = ok dust_Sigma ->
    integrator s' = integrator s ->
    trace s' = trace s ++ [EResample Mstar UV] ->
    get FRIED (root s')
    = ok (NGroup dF (Some ["rLim_in"; "rTrunc"; "MassLoss"]) msF) ->
    lookup "Table" msF = Some (NGroup dT None msT) ->
    has_field msT "radii" (VArray1 setup_grid_radii) None None ->
    has_field msT "Sigma" (VArray1 (setup_grid_Sigma pow10)) None None ->
    has_field msT "MassLoss" (VArray2 tbl) None None ->
    lookup "_Interpolator" msF = Some (NAttr (PInterpolator itp)) ->
    has_field msF "rLim_in" r_out (Some LimitInRadius) None ->
    has_field msF "rTrunc" r_out (Some TruncationRadius) None ->
    has_field msF "MassLoss" (Np.zeros_like r) (Some MassLoss_FRIED) None ->
    get ["gas"; "S"] (root s') = ok (NGroup dgS ugS msgS) ->
    has_field msgS "EPE" (Np.zeros_like gas_Sigma) None None ->
    get ["dust"; "S"] (root s') = ok (NGroup ddS udS msdS) ->
    has_field msdS "EPE" (Np.zeros_like dust_Sigma) None None ->
    get_value ["grid"; "r"] (root s') = ok r ->
    setup_ext_pe_FRIED_post M_sun pow10 resample dir files s s'.

(** What one [field.update()] can do to the simulation: nothing, or one
    write to the field itself, which must have an updater. *)
Inductive field_step (s s' : Frame) : Prop :=
| step_skip : s' = s -> field_step s s'
| step_write (p : path) (f : Field) (u : updater_fn) (v : value) (n' : node) :
    get_field p (root s) = ok f ->
    f_updater f = Some u ->
    modify p (on_field (setvalue v)) (root s) = ok n' ->
    s' = mkFrame n' (integrator s) (trace s ++ [EUpdate p u]) ->
    field_step s s'.

Inductive field_steps : Frame -> Frame -> Prop :=
| steps_done (s : Frame) : field_steps s s
| steps_next (s s1 s2 : Frame) :
    field_step s s1 -> field_steps s1 s2 -> field_steps s s2.

(** A strictly increasing axis, as a proposition and as a test. *)
Fixpoint increasing (l : list Q) : Prop :=
  match l with
  | x :: (y :: _) as t => x < y /\ increasing t
  | _ => True
  end.

Fixpoint increasingb (l : list Q) : bool :=
  match l with
  | x :: (y :: _) as t => negb (Qle_bool y x) && increasingb t
  | _ => true
  end.

(** * Properties *)

(** ** Dictionaries and paths *)

Lemma lookup_assoc_set (k k' : string) (c : node) (ms : list (string * node)) :
  lookup k (assoc_set k' c ms) = if String.eqb k k' then Some c else lookup k ms.
Proof.
  induction ms as [|[k0 c0] ms IH]; simpl.
  - destruct (String.eqb_spec k k'); reflexivity.
  - destruct (String.eqb_spec k' k0) as [->|Hk'].
    + simpl. destruct (String.eqb_spec k k0); reflexivity.
    + simpl. rewrite IH.
      destruct (String.eqb_spec k k0) as [->|Hk]; [|reflexivity].
      destruct (String.eqb_spec k0 k'); [congruence|reflexivity].
Qed.

Lemma assoc_set_again (k : string) (c c' : node) (ms : list (string * node)) :
  assoc_set k c' (assoc_set k c ms) = assoc_set k c' ms.
Proof.
  induction ms as [|[k0 c0] ms IH]; simpl.
  - now rewrite String.eqb_refl.
  - destruct (String.eqb_spec k k0) as [->|Hk]; simpl.
    + now rewrite String.eqb_refl.
    + destruct (String.eqb_spec k k0); [contradiction|now rewrite IH].
Qed.

Lemma get_app (p q : path) (n : node) :
  get (p ++ q) n = rbind (get p n) (get q).
Proof.
  revert n. induction p as [|k p IH]; intros n; simpl; [reflexivity|].
  destruct n as [f|d u ms|o]; try reflexivity.
  destruct (lookup k ms); [apply IH|reflexivity].
Qed.

(** A write below [p] is a write to the node at [p]. *)
Lemma get_modify_app (p q : path) (f : node -> result node) (n n' : node) :
  modify (p ++ q) f n = ok n' ->
  exists c c', get p n = ok c /\ modify q f c = ok c' /\ get p n' = ok c'.
Proof.
  revert n n'. induction p as [|k p IH]; intros n n'; simpl.
  - intros H. exists n, n'. auto.
  - destruct n as [fl|d u ms|o]; try discriminate.
    destruct (lookup k ms) as [c|] eqn:Hk; try discriminate.
    destruct (modify (p ++ q) f c) as [e|c1] eqn:Hm; try discriminate.
    simpl. intros H. injection H as <-.
    destruct (IH _ _ Hm) as (c0 & c0' & H1 & H2 & H3).
    exists c0, c0'. simpl. rewrite lookup_assoc_set, String.eqb_refl. auto.
Qed.

(** A write to a field leaves every other path pointing at what it did:
    fields elsewhere and plain attributes are untouched. *)
Lemma get_field_modify_other (p : path) (g : Field -> result Field) :
  forall (q : path) (n n' : node),
    modify p (on_field g) n = ok n' -> q <> p ->
    get_field q n' = get_field q n.
Proof.
  induction p as [|k p IH]; intros q n n'; simpl.
  - destruct n as [fl|d u ms|o]; simpl; try discriminate.
    destruct (g fl); simpl; try discriminate. intros H Hq. injection H as <-.
    destruct q; [congruence|reflexivity].
  - destruct n as [fl|d u ms|o]; try discriminate.
    destruct (lookup k ms) as [c|] eqn:Hk; try discriminate.
    destruct (modify p (on_field g) c) as [e|c1] eqn:Hm; try discriminate.
    simpl. intros H Hq. injection H as <-.
    destruct q as [|k' q]; [reflexivity|].
    unfold get_field. simpl. rewrite lookup_assoc_set.
    destruct (String.eqb_spec k' k) as [->|Hne]; [|reflexivity].
    rewrite Hk. apply (IH q c c1 Hm). congruence.
Qed.

Lemma get_attr_modify_field (p : path) (g : Field -> result Field) :
  forall (q : path) (n n' : node) (o : pyobj),
    modify p (on_field g) n = ok n' ->
    get q n = ok (NAttr o) -> get q n' = ok (NAttr o).
Proof.
  induction p as [|k p IH]; intros q n n' o; simpl.
  - destruct n as [fl|d u ms|o']; simpl; try discriminate.
    destruct (g fl); simpl; try discriminate. intros H. injection H as <-.
    destruct q; simpl; discriminate.
  - destruct n as [fl|d u ms|o']; try discriminate.
    destruct (lookup k ms) as [c|] eqn:Hk; try discriminate.
    destruct (modify p (on_field g) c) as [e|c1] eqn:Hm; try discriminate.
    simpl. intros H. injection H as <-.
    destruct q as [|k' q]; simpl; [discriminate|].
    rewrite lookup_assoc_set.
    destruct (String.eqb_spec k' k) as [->|Hne]; [|auto].
    rewrite Hk. apply (IH q c c1 o Hm).
Qed.

(** The field that is written keeps everything but its value. *)
Lemma get_field_modify_same (p : path) (g : Field -> result Field) :
  forall (n n' : node),
    modify p (on_field g) n = ok n' ->
    exists f f', get_field p n = ok f /\ g f = ok f' /\ get_field p n' = ok f'.
Proof.
  intros n n' H.
  rewrite <- (app_nil_r p) in H.
  destruct (get_modify_app p [] _ _ H) as (c & c' & H1 & H2 & H3).
  simpl in H2. destruct c as [f|d u ms|o]; simpl in H2; try discriminate.
  destruct (g f) as [e|f'] eqn:Hg; simpl in H2; try discriminate.
  injection H2 as <-. exists f, f'. unfold get_field. rewrite H1, H3. auto.
Qed.

(** Writing to a field never changes a group's description or update order. *)
Lemma modify_field_group_header (p : path) (g : Field -> result Field) :
  forall (q : path) (n n' : node) d u ms,
    modify p (on_field g) n = ok n' ->
    get q n = ok (NGroup d u ms) ->
    exists ms', get q n' = ok (NGroup d u ms').
Proof.
  induction p as [|k p IH]; intros q n n' d u ms; simpl.
  - destruct n as [fl|d0 u0 ms0|o]; simpl; try discriminate.
    destruct (g fl); simpl; try discriminate. intros H. injection H as <-.
    destruct q; simpl; discriminate.
  - destruct n as [fl|d0 u0 ms0|o]; try discriminate.
    destruct (lookup k ms0) as [c|] eqn:Hk; try discriminate.
    destruct (modify p (on_field g) c) as [e|c1] eqn:Hm; try discriminate.
    simpl. intros H. injection H as <-.
    destruct q as [|k' q]; simpl.
    + intros H. injection H as <- <- <-. eauto.
    + rewrite lookup_assoc_set.
      destruct (String.eqb_spec k' k) as [->|Hne]; [|eauto].
      rewrite Hk. apply (IH q c c1 d u ms Hm).
Qed.

(** ** The monad *)

Lemma bind_ok {A B} (c : M A) (k : A -> M B) (s s' : Frame) (a : A) :
  c s = ok (a, s') -> bind c k s = k a s'.
Proof. unfold bind. now intros ->. Qed.

Lemma bind_inv {A B} (c : M A) (k : A -> M B) (s s'' : Frame) (b : B) :
  bind c k s = ok (b, s'') ->
  exists a s', c s = ok (a, s') /\ k a s' = ok (b, s'').
Proof.
  unfold bind. destruct (c s) as [e|[a s']]; [discriminate|]. eauto.
Qed.

Lemma lift_inv {A} (r : result A) (s s' : Frame) (a : A) :
  lift r s = ok (a, s') -> r = ok a /\ s' = s.
Proof.
  unfold lift. destruct r; [discriminate|]. intros H. now injection H as <- <-.
Qed.

Lemma emit_inv (e : event) (s s' : Frame) :
  emit e s = ok (tt, s') ->
  s' = mkFrame (root s) (integrator s) (trace s ++ [e]).
Proof. unfold emit. intros H. now injection H as <-. Qed.

Lemma write_root_inv (f : node -> result node) (s s' : Frame) :
  write_root f s = ok (tt, s') ->
  exists n, f (root s) = ok n /\ s' = mkFrame n (integrator s) (trace s).
Proof.
  unfold write_root. destruct (f (root s)) as [e|n]; [discriminate|].
  intros H. injection H as <-. eauto.
Qed.

Lemma read_inv (p : path) (s s' : Frame) (v : value) :
  read p s = ok (v, s') -> s' = s /\ get_value p (root s) = ok v.
Proof.
  unfold read, read_root. intros H. apply lift_inv in H. tauto.
Qed.

Lemma read_ok (p : path) (s : Frame) (v : value) :
  get_value p (root s) = ok v -> read p s = ok (v, s).
Proof. unfold read, read_root, lift. now intros ->. Qed.

Lemma read_field_inv (p : path) (s s' : Frame) (f : Field) :
  read_field p s = ok (f, s') -> s' = s /\ get_field p (root s) = ok f.
Proof.
  unfold read_field, read_root. intros H. apply lift_inv in H. tauto.
Qed.

Lemma append_instruction_inv (i : Instruction) (s s' : Frame) :
  append_instruction i s = ok (tt, s') ->
  exists l, integrator s = Some l
            /\ s' = mkFrame (root s) (Some (l ++ [i])) (trace s).
Proof.
  unfold append_instruction. destruct (integrator s) as [l|]; [|discriminate].
  intros H. injection H as <-. eauto.
Qed.

(** Reading below one member of a group is not affected by a write to
    another member. *)
Lemma get_skip (k k' : string) (p : path) d u c ms :
  String.eqb k k' = false ->
  get (k :: p) (NGroup d u (assoc_set k' c ms)) = get (k :: p) (NGroup d u ms).
Proof. intros H. simpl. now rewrite lookup_assoc_set, H. Qed.

Lemma get_value_skip (k k' : string) (p : path) d u c ms :
  String.eqb k k' = false ->
  get_value (k :: p) (NGroup d u (assoc_set k' c ms))
  = get_value (k :: p) (NGroup d u ms).
Proof. intros H. unfold get_value. now rewrite get_skip. Qed.

Lemma get_field_skip (k k' : string) (p : path) d u c ms :
  String.eqb k k' = false ->
  get_field (k :: p) (NGroup d u (assoc_set k' c ms))
  = get_field (k :: p) (NGroup d u ms).
Proof. intros H. unfold get_field. now rewrite get_skip. Qed.

Lemma field_at_assoc_set (k k' : string) (c : node) (ms : list (string * node)) :
  field_at k (assoc_set k' c ms)
  = if String.eqb k k'
    then match c with NField f => Some f | _ => None end
    else field_at k ms.
Proof.
  unfold field_at. rewrite lookup_assoc_set. now destruct (String.eqb k k').
Qed.

(** *** Running a set-up routine step by step

    [exec H] peels the first statement off the routine in [H], works out
    what it needed from the simulation and what it left behind, and keeps
    the remainder of the routine in [H]. *)

Ltac simp H :=
  simpl in H; unfold on_group, on_field, rbind in H; simpl in H;
  repeat (first [ rewrite lookup_assoc_set in H
                | rewrite field_at_assoc_set in H ]; simpl in H).

Ltac unstick H :=
  simp H;
  repeat (match type of H with
          | context [match ?x with _ => _ end] =>
              first [ is_var x
                    | match x with lookup _ ?ms => is_var ms end
                    | match x with field_at _ ?ms => is_var ms end
                    | match x with setvalue _ ?f => is_var f end ];
              destruct x eqn:?; try discriminate H; subst
          end; simp H).

Ltac exec_prim x Hs :=
  lazymatch type of Hs with
  | lift _ _ = _ => apply lift_inv in Hs; destruct Hs as [Hs ->]
  | read _ _ = _ =>
      apply read_inv in Hs; destruct Hs as [-> Hs];
      cbn [root app] in Hs; rewrite ?get_value_skip in Hs by reflexivity
  | read_field _ _ = _ =>
      apply read_field_inv in Hs; destruct Hs as [-> Hs];
      cbn [root app] in Hs; rewrite ?get_field_skip in Hs by reflexivity
  | emit _ _ = _ => destruct x; apply emit_inv in Hs; subst
  | append_instruction _ _ = _ =>
      destruct x; apply append_instruction_inv in Hs;
      let l := fresh "l" in destruct Hs as (l & Hs & ->)
  | _ =>
      destruct x;
      unfold addgroup, addfield, set_update_order, set_field_updater,
        set_field_differentiator, set_field_value, setattr in Hs;
      let n := fresh "n" in
      apply write_root_inv in Hs; destruct Hs as (n & Hs & ->);
      cbn [root integrator trace app] in Hs;
      unstick Hs; injection Hs as <-
  end.

Ltac exec H :=
  let x := fresh "x" in
  let s := fresh "s" in
  let Hs := fresh "Hs" in
  apply bind_inv in H; destruct H as (x & s & Hs & H);
  exec_prim x Hs;
  cbn [root integrator trace] in H;
  rewrite ?assoc_set_again in H.

Ltac exec_last H :=
  let x := fresh "x" in
  pose (x := tt); exec_prim x H.

(** ** The callbacks *)

Lemma dSigma_lostdust_run {X Y : Type} (x : X) (y : Y) (s : Frame) (ext : value) :
  get_value ["dust"; "S"; "ext"] (root s) = ok ext ->
  dSigma_lostdust x y s = ok (Np.neg ext, s).
Proof.
  intros H. unfold dSigma_lostdust, bind. now rewrite (read_ok _ _ H).
Qed.

Lemma dSigma_lostdust_inv {X Y : Type} (x : X) (y : Y) (s s' : Frame) (d : value) :
  dSigma_lostdust x y s = ok (d, s') ->
  s' = s /\ exists ext, get_value ["dust"; "S"; "ext"] (root s) = ok ext
                        /\ d = Np.neg ext.
Proof.
  unfold dSigma_lostdust, bind.
  destruct (read ["dust"; "S"; "ext"] s) as [e|[ext s1]] eqn:Hr; [discriminate|].
  apply read_inv in Hr. destruct Hr as [-> Hr].
  unfold ret. intros H. injection H as <- <-. eauto.
Qed.

Lemma M_lostdust_inv (s s' : Frame) (m : value) :
  M_lostdust s = ok (m, s') -> s' = s.
Proof.
  unfold M_lostdust, bind.
  destruct (read ["grid"; "A"] s) as [e|[A s1]] eqn:HA; [discriminate|].
  apply read_inv in HA. destruct HA as [-> HA].
  destruct (read ["lostdust"; "Sigma"] s) as [e|[Sg s1]] eqn:HS; [discriminate|].
  apply read_inv in HS. destruct HS as [-> HS].
  unfold lift. destruct (Np.mul A (Np.sum_last Sg)); [discriminate|].
  unfold ret. intros H. now injection H as <- <-.
Qed.

(** Entry-wise, an array and its negation add up to zero. *)
Lemma is_zero_plus_opp (x : Q) : Np.is_zero (x + - x) = true.
Proof. unfold Np.is_zero. apply Qeq_bool_iff. apply Qplus_opp_r. Qed.

Lemma zip_with_neg_zero (a : list Q) :
  forallb Np.is_zero (Np.zip_with Qplus a (map Qopp a)) = true.
Proof.
  induction a as [|x a IH]; simpl; [reflexivity|].
  now rewrite is_zero_plus_opp, IH.
Qed.

Lemma bcast1_neg (a : list Q) :
  Np.bcast1 Qplus a (map Qopp a) = ok (Np.zip_with Qplus a (map Qopp a)).
Proof. unfold Np.bcast1. now rewrite length_map, Nat.eqb_refl. Qed.

Lemma zip_rows_neg (m : list (list Q)) :
  Np.all_ok (Np.zip_rows Qplus m (map (map Qopp) m))
  = ok (map (fun r => Np.zip_with Qplus r (map Qopp r)) m).
Proof.
  induction m as [|r m IH]; simpl; [reflexivity|].
  rewrite bcast1_neg. simpl. now rewrite IH.
Qed.

Lemma add_neg_all_zero (v : value) :
  exists r, Np.add v (Np.neg v) = ok r /\ Np.all_zero r = true.
Proof.
  destruct v as [x|a|m]; unfold Np.add; simpl.
  - eexists. split; [reflexivity|]. apply is_zero_plus_opp.
  - rewrite bcast1_neg. simpl. eexists. split; [reflexivity|].
    apply zip_with_neg_zero.
  - unfold Np.bcast2. rewrite length_map, Nat.eqb_refl, zip_rows_neg. simpl.
    eexists. split; [reflexivity|]. simpl.
    induction m as [|r m IH]; simpl; [reflexivity|].
    now rewrite zip_with_neg_zero, IH.
Qed.

(** The product-then-sum of the code against the double sum. *)
Lemma qsum_scale (a : Q) (row : list Q) :
  a * Np.qsum row == Np.qsum (map (fun sigma => a * sigma) row).
Proof.
  induction row as [|x row IH]; simpl; [ring|].
  rewrite <- IH. ring.
Qed.

Lemma qsum_zip_area (A : list Q) (Sigma : list (list Q)) :
  Np.qsum (Np.zip_with Qmult A (map Np.qsum Sigma)) == area_weighted_sum A Sigma.
Proof.
  revert Sigma. induction A as [|a A IH]; intros [|row Sigma]; simpl;
    try reflexivity.
  rewrite IH, qsum_scale. reflexivity.
Qed.

Lemma M_lostdust_run (s : Frame) (A : list Q) (Sigma : list (list Q)) :
  get_value ["grid"; "A"] (root s) = ok (VArray1 A) ->
  get_value ["lostdust"; "Sigma"] (root s) = ok (VArray2 Sigma) ->
  List.length A = List.length Sigma ->
  M_lostdust s
  = ok (VScalar (Np.qsum (Np.zip_with Qmult A (map Np.qsum Sigma))), s).
Proof.
  intros HA HS Hlen. unfold M_lostdust.
  erewrite bind_ok by (apply read_ok; exact HA).
  erewrite bind_ok by (apply read_ok; exact HS).
  unfold bind, lift, Np.mul, Np.binop, Np.sum_last, Np.bcast1.
  rewrite length_map, Hlen, Nat.eqb_refl. reflexivity.
Qed.

(** ** The update cycle *)

Section UpdateCycle.

Variable imported : updater_fn -> node -> result value.

Lemma call_updater_inv (u : updater_fn) (s s' : Frame) (v : value) :
  call_updater imported u s = ok (v, s') -> s' = s.
Proof.
  assert (Hr : forall f : node -> result value,
             read_root f s = ok (v, s') -> s' = s).
  { intros f. unfold read_root, lift. destruct (f (root s)); [discriminate|].
    intros H. now injection H as <- <-. }
  destruct u; simpl; try apply Hr. apply M_lostdust_inv.
Qed.

Lemma update_field_step (p : path) (s s' : Frame) :
  update_field imported p s = ok (tt, s') -> field_step s s'.
Proof.
  unfold update_field. intros H.
  apply bind_inv in H. destruct H as (f & s1 & Hf & H).
  unfold read_field, read_root, lift in Hf.
  destruct (get_field p (root s)) as [e|f0] eqn:Hget; [discriminate|].
  injection Hf as <- <-.
  destruct (f_updater f0) as [u|] eqn:Hu.
  - apply bind_inv in H. destruct H as ([] & s2 & He & H).
    unfold emit in He. injection He as <-.
    apply bind_inv in H. destruct H as (v & s3 & Hc & H).
    apply call_updater_inv in Hc. subst s3.
    unfold set_field_value, write_root in H. simpl in H.
    destruct (modify p (on_field (setvalue v)) (root s)) as [e|n'] eqn:Hm;
      [discriminate|].
    injection H as <-. eapply step_write; eauto.
  - unfold ret in H. injection H as <-. now apply step_skip.
Qed.

Lemma for_each_update_field_steps (plan : list path) (s s' : Frame) :
  for_each (update_field imported) plan s = ok (tt, s') -> field_steps s s'.
Proof.
  revert s. induction plan as [|p plan IH]; intros s; simpl.
  - unfold ret. intros H. injection H as <-. constructor.
  - intros H. apply bind_inv in H. destruct H as ([] & s1 & H1 & H2).
    eapply steps_next; [eapply update_field_step; eauto|auto].
Qed.

Lemma update_steps (g : path) (s s' : Frame) :
  update imported g s = ok (tt, s') -> field_steps s s'.
Proof.
  unfold update. intros H. apply bind_inv in H.
  destruct H as (plan & s1 & Hp & H).
  unfold read_root, lift in Hp.
  destruct (rbind (get g (root s)) (update_plan g)); [discriminate|].
  injection Hp as <- <-. eapply for_each_update_field_steps; eauto.
Qed.

Lemma field_steps_trans (s s1 s2 : Frame) :
  field_steps s s1 -> field_steps s1 s2 -> field_steps s s2.
Proof.
  induction 1; [auto|]. intros H2. eapply steps_next; eauto.
Qed.

Lemma update_cycles_steps (g : path) (n : nat) (s s' : Frame) :
  update_cycles imported g n s = ok (tt, s') -> field_steps s s'.
Proof.
  revert s. induction n as [|n IH]; intros s; simpl.
  - unfold ret. intros H. injection H as <-. constructor.
  - intros H. apply bind_inv in H. destruct H as ([] & s1 & H1 & H2).
    eapply field_steps_trans; [eapply update_steps; eauto|auto].
Qed.

End UpdateCycle.

Lemma path_eq_dec (p q : path) : {p = q} + {p <> q}.
Proof. apply list_eq_dec, string_dec. Qed.

Lemma setvalue_same_registration (v : value) (f f' : Field) :
  setvalue v f = ok f' -> same_registration f f'.
Proof.
  unfold setvalue. destruct (f_constant f) eqn:Hc; [discriminate|].
  destruct (Np.assign (f_value f) v); simpl; [discriminate|].
  intros H. injection H as <-. unfold same_registration. simpl. auto.
Qed.

Lemma same_registration_refl (f : Field) : same_registration f f.
Proof. unfold same_registration. auto. Qed.

Lemma same_registration_trans (f g h : Field) :
  same_registration f g -> same_registration g h -> same_registration f h.
Proof.
  unfold same_registration.
  intros (A1 & A2 & A3 & A4 & A5) (B1 & B2 & B3 & B4 & B5).
  repeat split; congruence.
Qed.

Lemma resample_calls_app (t t' : list event) :
  resample_calls (t ++ t') = (resample_calls t + resample_calls t')%nat.
Proof. unfold resample_calls. now rewrite filter_app, length_app. Qed.

(** What a run of field updates cannot change. *)
Lemma field_steps_frame (s s' : Frame) :
  field_steps s s' ->
  integrator s' = integrator s
  /\ resample_calls (trace s') = resample_calls (trace s)
  /\ (forall q o, get q (root s) = ok (NAttr o) -> get q (root s') = ok (NAttr o))
  /\ (forall q d u ms, get q (root s) = ok (NGroup d u ms) ->
        exists ms', get q (root s') = ok (NGroup d u ms'))
  /\ (forall q f, get_field q (root s) = ok f ->
        exists f', get_field q (root s') = ok f' /\ same_registration f f')
  /\ (forall q f, get_field q (root s) = ok f -> f_updater f = None ->
        get_field q (root s') = ok f).
Proof.
  induction 1 as [s|s s1 s2 Hstep Hsteps IH].
  - repeat split; eauto using same_registration_refl.
  - destruct IH as (I1 & I2 & I3 & I4 & I5 & I6).
    destruct Hstep as [->|p f u v n' Hf Hu Hm ->].
    + repeat split; auto.
    + simpl in *. rewrite I1, I2, resample_calls_app. simpl.
      split; [reflexivity|]. split; [apply Nat.add_0_r|].
      split; [|split; [|split]].
      * intros q o Hq. apply I3. eapply get_attr_modify_field; eauto.
      * intros q d u0 ms Hq.
        edestruct modify_field_group_header as (ms1 & Hq1);
          [exact Hm|exact Hq|]. eauto.
      * intros q f0 Hq.
        destruct (path_eq_dec q p) as [->|Hne].
        -- edestruct get_field_modify_same as (f1 & f1' & G1 & G2 & G3);
             [exact Hm|].
           destruct (I5 _ _ G3) as (f2 & G4 & G5). exists f2. split; [auto|].
           rewrite Hq in G1. injection G1 as <-.
           eapply same_registration_trans; [|eauto].
           eapply setvalue_same_registration; eauto.
        -- apply I5. erewrite get_field_modify_other; eauto.
      * intros q f0 Hq Hnone.
        assert (Hne : q <> p).
        { intros ->. rewrite Hq in Hf. injection Hf as <-. congruence. }
        apply I6; [|auto]. erewrite get_field_modify_other; eauto.
Qed.

(** ** The set-up routines *)

Ltac same_reads :=
  repeat match goal with
         | H1 : ?t = ok ?a, H2 : ?t = ok ?b |- _ =>
             is_var b;
             let E := fresh "E" in
             assert (E : b = a)
               by (rewrite H1 in H2; injection H2; intros; symmetry; assumption);
             clear H2; subst b
         end.

Ltac eval_goal :=
  cbn [root integrator trace app]; simpl;
  repeat (rewrite lookup_assoc_set; simpl).

Ltac solve_has_field :=
  eexists; split; [eval_goal; reflexivity | repeat split; reflexivity].

Ltac finish_post :=
  lazymatch goal with
  | |- get _ _ = _ => unfold FRIED; eval_goal; reflexivity
  | |- lookup _ _ = _ => eval_goal; reflexivity
  | |- has_field _ _ _ _ _ => solve_has_field
  | |- get_value _ _ = _ =>
      cbn [root]; rewrite !get_value_skip by reflexivity; eassumption
  end.

Arguments setup_grid_radii : simpl never.
Arguments setup_grid_Sigma : simpl never.

Section SetupProperties.

Variable M_sun : Q.
Variable pow10 : Q -> Q.
Variable resample : ResampleArgs -> result (list (list Q) * Interpolator).

Lemma setup_ext_pe_FRIED_inv (dir : string) (files : list string)
      (floor : value) (s s' : Frame) :
  setup_ext_pe_FRIED M_sun pow10 resample dir files floor s = ok (tt, s') ->
  setup_ext_pe_FRIED_post M_sun pow10 resample dir files s s'.
Proof.
  unfold setup_ext_pe_FRIED, FRIED. intros H. destruct s as [n0 i0 t0].
  do 6 exec H.
  match type of H with context [let (_, _) := ?p in _] => destruct p as [tbl itp] end.
  repeat exec H.
  all: exec_last H.
  all: same_reads.
  all: eapply FRIED_post.
  all: try eassumption.
  all: try (cbn [root integrator trace]; reflexivity).
  all: finish_post.
Qed.

Lemma param_ext_pe_FRIED_inv (UV_Flux : value) (s s' : Frame) :
  param_ext_pe_FRIED UV_Flux s = ok (tt, s') ->
  integrator s' = integrator s /\ trace s' = trace s
  /\ exists f, get_field (FRIED ++ ["UV_Flux"]) (root s') = ok f
               /\ f_value f = UV_Flux /\ f_updater f = None
               /\ f_differentiator f = None /\ f_constant f = true.
Proof.
  unfold param_ext_pe_FRIED, FRIED. intros H. destruct s as [n0 i0 t0].
  do 2 exec H. exec_last H.
  split; [reflexivity|]. split; [reflexivity|].
  eexists. split; [unfold get_field; eval_goal; reflexivity|].
  repeat split; reflexivity.
Qed.

Variable imported : updater_fn -> node -> result value.

Lemma setup_lostdust_inv (using_FRIED : bool) (s s' : Frame) :
  setup_lostdust imported using_FRIED s = ok (tt, s') ->
  exists l d ms dL msL fS fM dust_Sigma,
    integrator s = Some l
    /\ integrator s' = Some (l ++ [lostdust_instruction])
    /\ resample_calls (trace s') = resample_calls (trace s)
    /\ root s'
       = NGroup d (Some (if using_FRIED
                         then ["star"; "grid"; "FRIED"; "gas"; "dust"; "lostdust"]
                         else ["star"; "grid"; "gas"; "dust"; "lostdust"])) ms
    /\ get ["lostdust"] (root s') = ok (NGroup dL (Some ["M"]) msL)
    /\ get_value ["dust"; "Sigma"] (root s) = ok dust_Sigma
    /\ get_field ["lostdust"; "Sigma"] (root s') = ok fS
    /\ f_value fS = Np.zeros_like dust_Sigma
    /\ f_updater fS = None
    /\ f_differentiator fS = Some dSigma_lostdust_fn
    /\ get_field ["lostdust"; "M"] (root s') = ok fM
    /\ f_updater fM = Some M_lostdust_fn
    /\ f_differentiator fM = None.
Proof.
  unfold setup_lostdust. intros H. destruct s as [n0 i0 t0].
  destruct using_FRIED.
  all: do 10 exec H.
  all: apply update_steps in H; apply field_steps_frame in H.
  all: cbn [root integrator trace] in H.
  all: destruct H as (I1 & I2 & _ & I4 & I5 & I6).
  all: edestruct (I4 []) as (ms' & Hroot); [simpl; reflexivity|].
  all: edestruct (I4 ["lostdust"]) as (msL & HL); [eval_goal; reflexivity|].
  all: edestruct (I5 ["lostdust"; "M"]) as (fM & HM & RM1 & RM2 & _);
    [unfold get_field; eval_goal; reflexivity|].
  all: simpl in RM1, RM2.
  all: epose proof (I6 ["lostdust"; "Sigma"] _) as HS.
  all: unfold get_field in HS at 1; simpl in HS.
  all: repeat (rewrite lookup_assoc_set in HS; simpl in HS).
  all: specialize (HS eq_refl eq_refl).
  all: simpl in Hroot; injection Hroot as Hroot.
  all: do 8 eexists.
  all: split; [cbn [integrator]; eassumption|].
  all: split; [exact I1|].
  all: split; [exact I2|].
  all: split; [exact Hroot|].
  all: split; [exact HL|].
  all: split; [eassumption|].
  all: split; [exact HS|].
  all: split; [reflexivity|]. all: split; [reflexivity|].
  all: split; [reflexivity|]. all: split; [exact HM|].
  all: split; assumption.
Qed.

(** Outside its own group, [setup_lostdust] leaves plain attributes and
    fields without an updater as they were. *)
Lemma setup_lostdust_frame (using_FRIED : bool) (s s' : Frame) :
  setup_lostdust imported using_FRIED s = ok (tt, s') ->
  resample_calls (trace s') = resample_calls (trace s)
  /\ (forall k p f, String.eqb k "lostdust" = false ->
         get_field (k :: p) (root s) = ok f -> f_updater f = None ->
         get_field (k :: p) (root s') = ok f)
  /\ (forall k p o, String.eqb k "lostdust" = false ->
         get (k :: p) (root s) = ok (NAttr o) ->
         get (k :: p) (root s') = ok (NAttr o)).
Proof.
  unfold setup_lostdust. intros H. destruct s as [n0 i0 t0].
  destruct using_FRIED.
  all: do 10 exec H.
  all: apply update_steps in H; apply field_steps_frame in H.
  all: cbn [root integrator trace] in H |- *.
  all: destruct H as (_ & I2 & I3 & _ & _ & I6).
  all: split; [exact I2|]; split.
  all: intros k p; intros.
  all: first [ apply I6; [|assumption]; unfold get_field in *
             | apply I3 ].
  all: simpl; rewrite lookup_assoc_set;
    match goal with Hk : String.eqb _ _ = false |- _ => rewrite Hk end;
    assumption.
Qed.

End SetupProperties.

(** * The lost-dust callbacks *)

(** C1, as amended.  [dSigma_lostdust] returns the negation of the host's
    external dust source term [dust.S.ext], whatever [x] and [Y] are:
    entry by entry, [dust.S.ext + dSigma_lostdust(sim, x, Y)] is zero, and
    the simulation is left as it was. *)
Theorem dSigma_lostdust_negates_dust_S_ext
        (X Y : Type) (x : X) (y : Y) (s : Frame) (ext : value) :
  get_value ["dust"; "S"; "ext"] (root s) = ok ext ->
  dSigma_lostdust x y s = ok (Np.neg ext, s)
  /\ exists r, Np.add ext (Np.neg ext) = ok r /\ Np.all_zero r = true.
Proof.
  intros H. split.
  - now apply dSigma_lostdust_run.
  - apply add_neg_all_zero.
Qed.

Lemma dSigma_lostdust_negates_dust_S_ext_witness :
  get_value ["dust"; "S"; "ext"] (root Example.sim_FRIED) = ok Example.dust_S_ext
  /\ dSigma_lostdust 0%nat Example.dust_S_ext Example.sim_FRIED
     = ok (VArray2 [[3; 0]; [0; 1 # 2]], Example.sim_FRIED).
Proof.
  assert (H : get_value ["dust"; "S"; "ext"] (root Example.sim_FRIED)
              = ok Example.dust_S_ext) by (vm_compute; reflexivity).
  split; [exact H|].
  exact (proj1 (dSigma_lostdust_negates_dust_S_ext
                  0%nat Example.dust_S_ext Example.sim_FRIED H)).
Defined.

(** C1, as stated, fails right after the FRIED set-up: [dust.S.EPE] is the
    zero array the set-up registered, the callback returns the negation of
    [dust.S.ext], and their sum is not zero. *)
Lemma dust_S_EPE_plus_dSigma_lostdust_nonzero :
  get_value ["dust"; "S"; "EPE"] (root Example.sim_FRIED)
  = ok (VArray2 [[0; 0]; [0; 0]])
  /\ dSigma_lostdust tt tt Example.sim_FRIED
     = ok (VArray2 [[3; 0]; [0; 1 # 2]], Example.sim_FRIED)
  /\ Np.add (VArray2 [[0; 0]; [0; 0]]) (VArray2 [[3; 0]; [0; 1 # 2]])
     = ok (VArray2 [[3; 0]; [0; 1 # 2]])
  /\ Np.all_zero (VArray2 [[3; 0]; [0; 1 # 2]]) = false.
Proof. repeat split; vm_compute; reflexivity. Qed.

(** C9.  The value [dSigma_lostdust] returns does not depend on [x] or
    [Y]: two calls on the same simulation agree, whatever is passed. *)
Theorem dSigma_lostdust_ignores_x_Y
        (X Y X' Y' : Type) (x : X) (y : Y) (x' : X') (y' : Y') (s : Frame) :
  dSigma_lostdust x y s = dSigma_lostdust x' y' s.
Proof. reflexivity. Qed.

(** C3.  With one area per cell and one row of surface densities per cell,
    [M_lostdust] returns the sum over the cells of the cell area times the
    lost-dust surface density of every species, it leaves the simulation
    as it was, and a second call returns the same scalar. *)
Theorem M_lostdust_area_weighted_sum
        (s : Frame) (A : list Q) (Sigma : list (list Q)) :
  get_value ["grid"; "A"] (root s) = ok (VArray1 A) ->
  get_value ["lostdust"; "Sigma"] (root s) = ok (VArray2 Sigma) ->
  List.length A = List.length Sigma ->
  exists m,
    M_lostdust s = ok (VScalar m, s)
    /\ m == area_weighted_sum A Sigma
    /\ (m1 <- M_lostdust ;; m2 <- M_lostdust ;; ret (m1, m2)) s
       = ok ((VScalar m, VScalar m), s).
Proof.
  intros HA HS Hlen.
  pose proof (M_lostdust_run s HA HS Hlen) as Hrun.
  eexists. split; [exact Hrun|]. split; [apply qsum_zip_area|].
  erewrite bind_ok by exact Hrun. erewrite bind_ok by exact Hrun.
  reflexivity.
Qed.

Lemma M_lostdust_area_weighted_sum_witness :
  exists m,
    M_lostdust Example.sim_running = ok (VScalar m, Example.sim_running)
    /\ m == 44
    /\ (m1 <- M_lostdust ;; m2 <- M_lostdust ;; ret (m1, m2)) Example.sim_running
       = ok ((VScalar m, VScalar m), Example.sim_running).
Proof.
  destruct (@M_lostdust_area_weighted_sum
              Example.sim_running [3; 5] [[1; 2]; [3; 4]])
    as (m & H1 & H2 & H3);
    [vm_compute; reflexivity | vm_compute; reflexivity | reflexivity |].
  exists m. split; [exact H1|]. split; [|exact H3].
  rewrite H2. vm_compute. reflexivity.
Defined.

(** * What the callbacks and the updaters write *)

Lemma update_field_inv (imported : updater_fn -> node -> result value)
      (p : path) (s s' : Frame) :
  update_field imported p s = ok (tt, s') ->
  exists f, get_field p (root s) = ok f
    /\ match f_updater f with
       | None => s' = s
       | Some u =>
           exists v n',
             call_updater imported u
               (mkFrame (root s) (integrator s) (trace s ++ [EUpdate p u]))
             = ok (v, mkFrame (root s) (integrator s) (trace s ++ [EUpdate p u]))
             /\ modify p (on_field (setvalue v)) (root s) = ok n'
             /\ s' = mkFrame n' (integrator s) (trace s ++ [EUpdate p u])
       end.
Proof.
  unfold update_field. intros H.
  apply bind_inv in H. destruct H as (f & s1 & Hf & H).
  apply read_field_inv in Hf. destruct Hf as [-> Hf].
  exists f. split; [exact Hf|].
  destruct (f_updater f) as [u|].
  - apply bind_inv in H. destruct H as ([] & s2 & He & H).
    apply emit_inv in He. subst s2.
    apply bind_inv in H. destruct H as (v & s3 & Hc & H).
    pose proof (call_updater_inv _ _ _ Hc) as ->.
    unfold set_field_value in H. apply write_root_inv in H.
    destruct H as (n' & Hm & ->). simpl in Hm. eauto.
  - unfold ret in H. now injection H as <-.
Qed.

(** C7.  [dSigma_lostdust] and [M_lostdust] return a value and leave the
    simulation exactly as it was.  Updating a field through its registered
    updater leaves the integrator, every plain attribute and every other
    field as they were, and changes nothing of the field itself but its
    value. *)
Theorem callbacks_and_updaters_write_only_their_field :
  (forall (X Y : Type) (x : X) (y : Y) (s s' : Frame) (d : value),
      dSigma_lostdust x y s = ok (d, s') -> s' = s)
  /\ (forall (s s' : Frame) (m : value), M_lostdust s = ok (m, s') -> s' = s)
  /\ (forall (imported : updater_fn -> node -> result value)
             (p : path) (s s' : Frame),
         update_field imported p s = ok (tt, s') ->
         integrator s' = integrator s
         /\ (forall q, q <> p -> get_field q (root s') = get_field q (root s))
         /\ (forall q o, get q (root s) = ok (NAttr o) ->
                         get q (root s') = ok (NAttr o))
         /\ exists f f', get_field p (root s) = ok f
                         /\ get_field p (root s') = ok f'
                         /\ same_registration f f').
Proof.
  split; [|split].
  - intros X Y x y s s' d H. now apply dSigma_lostdust_inv in H.
  - intros s s' m H. now apply M_lostdust_inv in H.
  - intros imported p s s' H.
    apply update_field_inv in H. destruct H as (f & Hf & H).
    destruct (f_updater f) as [u|].
    + destruct H as (v & n' & _ & Hm & ->). simpl.
      split; [reflexivity|]. split; [|split].
      * intros q Hq. eapply get_field_modify_other; eauto.
      * intros q o Hq. eapply get_attr_modify_field; eauto.
      * edestruct get_field_modify_same as (f1 & f1' & G1 & G2 & G3);
          [exact Hm|].
        exists f1, f1'. repeat split; auto.
        all: apply setvalue_same_registration in G2; apply G2.
    + subst s'. split; [reflexivity|]. split; [reflexivity|].
      split; [auto|]. exists f, f. auto using same_registration_refl.
Qed.

Lemma callbacks_and_updaters_write_only_their_field_witness :
  M_lostdust Example.sim_running = ok (VScalar 44, Example.sim_running)
  /\ exists s',
       update_field Example.imported ["lostdust"; "M"] Example.sim_running
       = ok (tt, s')
       /\ get_value ["lostdust"; "M"] (root s') = ok (VScalar 44)
       /\ get_field ["lostdust"; "Sigma"] (root s')
          = get_field ["lostdust"; "Sigma"] (root Example.sim_running)
       /\ integrator s' = integrator Example.sim_running.
Proof.
  split; [vm_compute; reflexivity|].
  destruct (update_field Example.imported ["lostdust"; "M"] Example.sim_running)
    as [e|[[] s']] eqn:Hrun; [vm_compute in Hrun; discriminate|].
  exists s'. split; [reflexivity|].
  destruct callbacks_and_updaters_write_only_their_field as (_ & _ & H).
  destruct (H _ _ _ _ Hrun) as (Hi & Ho & _ & _).
  split; [|split; [apply Ho; discriminate | exact Hi]].
  vm_compute in Hrun. injection Hrun as <-. vm_compute. reflexivity.
Defined.

(** * What the set-up routines leave behind *)

Lemma has_field_get (g : path) (n : node) d u ms k v up dd :
  get g n = ok (NGroup d u ms) ->
  has_field ms k v up dd ->
  exists f, get_field (g ++ [k]) n = ok f
            /\ f_value f = v /\ f_updater f = up /\ f_differentiator f = dd.
Proof.
  intros Hg (f & Hl & Hv & Hu & Hd). exists f.
  unfold get_field. rewrite get_app, Hg. simpl. rewrite Hl. auto.
Qed.

Lemma get_field_value (p : path) (n : node) (f : Field) :
  get_field p n = ok f -> get_value p n = ok (f_value f).
Proof.
  unfold get_field, get_value. destruct (get p n) as [e|c]; [discriminate|].
  simpl. destruct c as [f0|d u ms|o]; try discriminate.
  intros H. now injection H as <-.
Qed.

Lemma has_field_value (g : path) (n : node) d u ms k v up dd :
  get g n = ok (NGroup d u ms) ->
  has_field ms k v up dd ->
  get_value (g ++ [k]) n = ok v.
Proof.
  intros Hg Hf.
  edestruct has_field_get as (f & H & <- & _); [exact Hg|exact Hf|].
  now apply get_field_value.
Qed.

Lemma all_zero_zeros_like (v : value) : Np.all_zero (Np.zeros_like v) = true.
Proof.
  destruct v as [x|a|m]; simpl; [reflexivity| |].
  - induction a; simpl; auto.
  - induction m as [|r m IH]; simpl; [reflexivity|]. rewrite IH.
    rewrite andb_true_r. induction r; simpl; auto.
Qed.

(** C10.  When [setup_ext_pe_FRIED] returns, [rTrunc] and [rLim_in] both
    hold the last entry of [sim.grid.r], and [FRIED.MassLoss], [gas.S.EPE]
    and [dust.S.EPE] are zero arrays shaped like [grid.r], [gas.Sigma] and
    [dust.Sigma]. *)
Theorem setup_ext_pe_FRIED_initial_values
        (M_sun : Q) (pow10 : Q -> Q)
        (resample : ResampleArgs -> result (list (list Q) * Interpolator))
        (dir : string) (files : list string) (floor : value) (s s' : Frame) :
  setup_ext_pe_FRIED M_sun pow10 resample dir files floor s = ok (tt, s') ->
  exists r r_out gas_Sigma dust_Sigma,
    get_value ["grid"; "r"] (root s') = ok r
    /\ Np.last_item r = ok r_out
    /\ get_value ["gas"; "Sigma"] (root s) = ok gas_Sigma
    /\ get_value ["dust"; "Sigma"] (root s) = ok dust_Sigma
    /\ get_value (FRIED ++ ["rTrunc"]) (root s') = ok r_out
    /\ get_value (FRIED ++ ["rLim_in"]) (root s') = ok r_out
    /\ get_value (FRIED ++ ["MassLoss"]) (root s') = ok (Np.zeros_like r)
    /\ get_value ["gas"; "S"; "EPE"] (root s') = ok (Np.zeros_like gas_Sigma)
    /\ get_value ["dust"; "S"; "EPE"] (root s') = ok (Np.zeros_like dust_Sigma)
    /\ Np.all_zero (Np.zeros_like r) = true
    /\ Np.all_zero (Np.zeros_like gas_Sigma) = true
    /\ Np.all_zero (Np.zeros_like dust_Sigma) = true.
Proof.
  intros H. apply setup_ext_pe_FRIED_inv in H.
  destruct H as [star_M Mstar UV Sigma1AU r r_out gas_Sigma dust_Sigma tbl itp
                 dF dT dgS ddS ugS udS msF msT msgS msdS
                 _ _ _ _ _ _ Hlast HgS HdS _ _ HF _ _ _ _ _ Hlim Htr Hml
                 HgasS HgEPE HdustS HdEPE Hr].
  exists r, r_out, gas_Sigma, dust_Sigma.
  repeat split; auto using all_zero_zeros_like.
  - eapply has_field_value; eauto.
  - eapply has_field_value; eauto.
  - eapply has_field_value; eauto.
  - change ["gas"; "S"; "EPE"] with (["gas"; "S"] ++ ["EPE"]).
    eapply has_field_value; eauto.
  - change ["dust"; "S"; "EPE"] with (["dust"; "S"] ++ ["EPE"]).
    eapply has_field_value; eauto.
Qed.

Lemma setup_ext_pe_FRIED_initial_values_witness :
  Example.setup_ext_pe_FRIED_default Example.sim_param = ok (tt, Example.sim_FRIED)
  /\ get_value (FRIED ++ ["rTrunc"]) (root Example.sim_FRIED) = ok (VScalar 20)
  /\ get_value (FRIED ++ ["rLim_in"]) (root Example.sim_FRIED) = ok (VScalar 20)
  /\ get_value (FRIED ++ ["MassLoss"]) (root Example.sim_FRIED)
     = ok (VArray1 [0; 0])
  /\ get_value ["gas"; "S"; "EPE"] (root Example.sim_FRIED) = ok (VArray1 [0; 0])
  /\ get_value ["dust"; "S"; "EPE"] (root Example.sim_FRIED)
     = ok (VArray2 [[0; 0]; [0; 0]]).
Proof.
  assert (Hrun : Example.setup_ext_pe_FRIED_default Example.sim_param
                 = ok (tt, Example.sim_FRIED)) by (vm_compute; reflexivity).
  split; [exact Hrun|].
  destruct (setup_ext_pe_FRIED_initial_values _ _ _ _ _ _ _ Hrun)
    as (r & r_out & gS & dS & Hr & Hlast & HgS & HdS & H1 & H2 & H3 & H4 & H5 & _).
  assert (r = VArray1 [10; 20]) as ->
      by (vm_compute in Hr; injection Hr as <-; reflexivity).
  assert (r_out = VScalar 20) as ->
      by (vm_compute in Hlast; injection Hlast as <-; reflexivity).
  assert (gS = VArray1 [7; 0]) as ->
      by (vm_compute in HgS; injection HgS as <-; reflexivity).
  assert (dS = VArray2 [[1; 2]; [3; 4]]) as ->
      by (vm_compute in HdS; injection HdS as <-; reflexivity).
  repeat split; assumption.
Defined.

(** ** The update order of the FRIED group *)

Lemma lookup_plan_map (pre : path) (ms : list (string * node)) (k : string) :
  lookup_plan
    (map (fun kc : string * node =>
            let (k', c) := kc in (k', update_plan (pre ++ [k']) c)) ms) k
  = match lookup k ms with
    | Some c => update_plan (pre ++ [k]) c
    | None => raise (KeyError k)
    end.
Proof.
  unfold lookup_plan. induction ms as [|[k0 c0] ms IH]; simpl; [reflexivity|].
  destruct (String.eqb_spec k k0) as [->|Hne]; [reflexivity|apply IH].
Qed.

Lemma update_plan_fields (pre : path) d (order : list string)
      (ms : list (string * node)) :
  (forall k, In k order -> exists f, lookup k ms = Some (NField f)) ->
  update_plan pre (NGroup d (Some order) ms)
  = ok (map (fun k => pre ++ [k]) order).
Proof.
  intros H. simpl.
  induction order as [|k order IH]; simpl; [reflexivity|].
  rewrite lookup_plan_map.
  destruct (H k (or_introl eq_refl)) as (f & ->). simpl.
  rewrite IH; [reflexivity|]. intros k' Hk'. apply H. now right.
Qed.





(** ** The table and the interpolator *)

Lemma FRIED_table_preserved (pow10 : Q -> Q) (s s' : Frame)
      (tbl : list (list Q)) (itp : Interpolator) (fr fS fM : Field) :
  field_steps s s' ->
  get_field (FRIED ++ ["Table"; "radii"]) (root s) = ok fr ->
  get_field (FRIED ++ ["Table"; "Sigma"]) (root s) = ok fS ->
  get_field (FRIED ++ ["Table"; "MassLoss"]) (root s) = ok fM ->
  f_updater fr = None -> f_updater fS = None -> f_updater fM = None ->
  FRIED_table_is pow10 s tbl itp ->
  resample_calls (trace s') = resample_calls (trace s)
  /\ FRIED_table_is pow10 s' tbl itp.
Proof.
  intros Hsteps Gr GS GM Ur US UM (Tr & TS & TM & Ti).
  apply field_steps_frame in Hsteps.
  destruct Hsteps as (_ & Hcalls & Hattr & _ & _ & Hnone).
  split; [exact Hcalls|].
  pose proof (get_field_value _ _ Gr) as Vr. rewrite Tr in Vr.
  pose proof (get_field_value _ _ GS) as VS. rewrite TS in VS.
  pose proof (get_field_value _ _ GM) as VM. rewrite TM in VM.
  unfold FRIED_table_is.
  rewrite (get_field_value _ _ (Hnone _ _ Gr Ur)).
  rewrite (get_field_value _ _ (Hnone _ _ GS US)).
  rewrite (get_field_value _ _ (Hnone _ _ GM UM)).
  rewrite <- Vr, <- VS, <- VM. auto.
Qed.

(** C6.  [setup_ext_pe_FRIED] calls the resampler exactly once, for the
    stellar mass [star.M / M_sun] and the UV flux of the simulation, and
    stores the table and the interpolator it returns.  No later update
    cycle, of any group and however many, and no later [setup_lostdust],
    calls the resampler again or changes the stored table or
    interpolator. *)
Theorem setup_ext_pe_FRIED_resamples_once
        (M_sun : Q) (pow10 : Q -> Q)
        (resample : ResampleArgs -> result (list (list Q) * Interpolator))
        (dir : string) (files : list string) (floor : value) (s s' : Frame) :
  setup_ext_pe_FRIED M_sun pow10 resample dir files floor s = ok (tt, s') ->
  exists star_M Mstar UV Sigma1AU tbl itp,
    get_value ["star"; "M"] (root s) = ok star_M
    /\ Np.div star_M (VScalar M_sun) = ok Mstar
    /\ get_value (FRIED ++ ["UV_Flux"]) (root s) = ok UV
    /\ resample (mkResampleArgs dir files Mstar UV setup_grid_radii
                                (setup_grid_Sigma pow10) Sigma1AU)
       = ok (tbl, itp)
    /\ trace s' = trace s ++ [EResample Mstar UV]
    /\ resample_calls (trace s') = S (resample_calls (trace s))
    /\ FRIED_table_is pow10 s' tbl itp
    /\ (forall (imported : updater_fn -> node -> result value)
               (g : path) (n : nat) (s'' : Frame),
           update_cycles imported g n s' = ok (tt, s'') ->
           resample_calls (trace s'') = resample_calls (trace s')
           /\ FRIED_table_is pow10 s'' tbl itp)
    /\ (forall (imported : updater_fn -> node -> result value)
               (using_FRIED : bool) (s'' : Frame),
           setup_lostdust imported using_FRIED s' = ok (tt, s'') ->
           resample_calls (trace s'') = resample_calls (trace s')
           /\ FRIED_table_is pow10 s'' tbl itp).
Proof.
  intros H. apply setup_ext_pe_FRIED_inv in H.
  destruct H as [star_M Mstar UV Sigma1AU r r_out gas_Sigma dust_Sigma tbl itp
                 dF dT dgS ddS ugS udS msF msT msgS msdS
                 _ HM Hdiv HUV Hres _ _ _ _ _ Htrace HF HT Hrad HSig HML Hitp
                 _ _ _ _ _ _ _ _].
  assert (HTab : get (FRIED ++ ["Table"]) (root s') = ok (NGroup dT None msT)).
  { rewrite get_app, HF. simpl. now rewrite HT. }
  edestruct has_field_get as (fr & Gr & Vr & Ur & _); [exact HTab|exact Hrad|].
  edestruct has_field_get as (fS & GS & VS & US & _); [exact HTab|exact HSig|].
  edestruct has_field_get as (fM & GM & VM & UM & _); [exact HTab|exact HML|].
  rewrite <- app_assoc in Gr, GS, GM. simpl app in Gr, GS, GM.
  assert (Htbl : FRIED_table_is pow10 s' tbl itp).
  { unfold FRIED_table_is. simpl app.
    rewrite (get_field_value _ _ Gr), (get_field_value _ _ GS),
      (get_field_value _ _ GM), Vr, VS, VM.
    repeat split.
    change ["EPE"; "FRIED"; "_Interpolator"] with (FRIED ++ ["_Interpolator"]).
    rewrite get_app, HF. simpl. now rewrite Hitp. }
  exists star_M, Mstar, UV, Sigma1AU, tbl, itp.
  repeat (split; [assumption|]).
  split.
  { rewrite Htrace, resample_calls_app. simpl. apply Nat.add_1_r. }
  split; [exact Htbl|]. split.
  - intros imported g n s'' Hcyc. apply update_cycles_steps in Hcyc.
    eapply FRIED_table_preserved; eauto.
  - intros imported b s'' Hlost. apply setup_lostdust_frame in Hlost.
    destruct Hlost as (Hcalls & Hfld & Hattr).
    split; [exact Hcalls|].
    destruct Htbl as (Tr & TS & TM & Ti).
    unfold FRIED_table_is, FRIED in *. simpl app in *.
    pose proof (get_field_value _ _ Gr) as Wr. rewrite Tr in Wr.
    pose proof (get_field_value _ _ GS) as WS. rewrite TS in WS.
    pose proof (get_field_value _ _ GM) as WM. rewrite TM in WM.
    rewrite (get_field_value _ _ (Hfld "EPE" _ _ eq_refl Gr Ur)).
    rewrite (get_field_value _ _ (Hfld "EPE" _ _ eq_refl GS US)).
    rewrite (get_field_value _ _ (Hfld "EPE" _ _ eq_refl GM UM)).
    rewrite <- Wr, <- WS, <- WM.
    repeat split. apply Hattr; [reflexivity|exact Ti].
Qed.

Lemma setup_ext_pe_FRIED_resamples_once_witness :
  Example.setup_ext_pe_FRIED_default Example.sim_param = ok (tt, Example.sim_FRIED)
  /\ resample_calls (trace Example.sim_FRIED) = 1%nat
  /\ exists s'',
       update_cycles Example.imported FRIED 3 Example.sim_FRIED = ok (tt, s'')
       /\ resample_calls (trace s'') = 1%nat
       /\ FRIED_table_is Example.pow10 s'' Example.table Example.interp.
Proof.
  assert (Hrun : Example.setup_ext_pe_FRIED_default Example.sim_param
                 = ok (tt, Example.sim_FRIED)) by (vm_compute; reflexivity).
  split; [exact Hrun|]. split; [vm_compute; reflexivity|].
  destruct (update_cycles Example.imported FRIED 3 Example.sim_FRIED)
    as [e|[[] s'']] eqn:Hcyc; [vm_compute in Hcyc; discriminate|].
  exists s''. split; [reflexivity|].
  destruct (setup_ext_pe_FRIED_resamples_once _ _ _ _ _ _ _ Hrun)
    as (sM & Mstar & UV & g1 & tbl & itp & _ & _ & _ & Hres & _ & _ & _ & H & _).
  unfold Example.resample in Hres. injection Hres as <- <-.
  destruct (H _ _ _ _ Hcyc) as (Hcalls & Htbl).
  split; [|exact Htbl]. rewrite Hcalls. vm_compute. reflexivity.
Defined.

(** ** Time integration *)

Lemma setup_ext_pe_FRIED_no_differentiator
      (M_sun : Q) (pow10 : Q -> Q)
      (resample : ResampleArgs -> result (list (list Q) * Interpolator))
      (dir : string) (files : list string) (floor : value) (s s' : Frame) :
  setup_ext_pe_FRIED M_sun pow10 resample dir files floor s = ok (tt, s') ->
  integrator s' = integrator s
  /\ forall p, In p FRIED_fields ->
               exists f, get_field p (root s') = ok f
                         /\ f_differentiator f = None.
Proof.
  intros H. apply setup_ext_pe_FRIED_inv in H.
  destruct H as [star_M Mstar UV Sigma1AU r r_out gas_Sigma dust_Sigma tbl itp
                 dF dT dgS ddS ugS udS msF msT msgS msdS
                 _ _ _ _ _ _ _ _ _ Hint _ HF HT Hrad HSig HML _
                 Hlim Htr Hml HgasS HgEPE HdustS HdEPE _].
  split; [exact Hint|].
  assert (HTab : get (FRIED ++ ["Table"]) (root s') = ok (NGroup dT None msT)).
  { rewrite get_app, HF. simpl. now rewrite HT. }
  intros p Hp. unfold FRIED_fields in Hp. simpl in Hp.
  repeat (destruct Hp as [<-|Hp]); try contradiction.
  - edestruct has_field_get as (f & G & _ & _ & D); [exact HTab|exact Hrad|].
    rewrite <- app_assoc in G. eauto.
  - edestruct has_field_get as (f & G & _ & _ & D); [exact HTab|exact HSig|].
    rewrite <- app_assoc in G. eauto.
  - edestruct has_field_get as (f & G & _ & _ & D); [exact HTab|exact HML|].
    rewrite <- app_assoc in G. eauto.
  - edestruct has_field_get as (f & G & _ & _ & D); [exact HF|exact Htr|]. eauto.
  - edestruct has_field_get as (f & G & _ & _ & D); [exact HF|exact Hlim|]. eauto.
  - edestruct has_field_get as (f & G & _ & _ & D); [exact HF|exact Hml|]. eauto.
  - edestruct has_field_get as (f & G & _ & _ & D); [exact HgasS|exact HgEPE|].
    eauto.
  - edestruct has_field_get as (f & G & _ & _ & D); [exact HdustS|exact HdEPE|].
    eauto.
Qed.

(** C5.  [setup_lostdust] appends one instruction to the integrator's
    list: explicit first-order Euler on [lostdust.Sigma], whose
    differentiator is [dSigma_lostdust]; [lostdust.M] gets none.
    [param_ext_pe_FRIED] and [setup_ext_pe_FRIED] leave the instruction
    list alone and register no differentiator on any of their fields. *)
Theorem setup_lostdust_registers_one_euler_instruction :
  (forall (imported : updater_fn -> node -> result value)
          (using_FRIED : bool) (s s' : Frame),
      setup_lostdust imported using_FRIED s = ok (tt, s') ->
      exists l fS fM,
        integrator s = Some l
        /\ integrator s'
           = Some (l ++ [mkInstruction expl_1_euler ["lostdust"; "Sigma"]
                           "Lost dust: explicit 1st-order Euler method"])
        /\ get_field ["lostdust"; "Sigma"] (root s') = ok fS
        /\ f_differentiator fS = Some dSigma_lostdust_fn
        /\ get_field ["lostdust"; "M"] (root s') = ok fM
        /\ f_differentiator fM = None)
  /\ (forall (M_sun : Q) (pow10 : Q -> Q)
             (resample : ResampleArgs -> result (list (list Q) * Interpolator))
             (dir : string) (files : list string) (floor : value)
             (s s' : Frame),
         setup_ext_pe_FRIED M_sun pow10 resample dir files floor s = ok (tt, s') ->
         integrator s' = integrator s
         /\ forall p, In p FRIED_fields ->
                      exists f, get_field p (root s') = ok f
                                /\ f_differentiator f = None)
  /\ (forall (UV_Flux : value) (s s' : Frame),
         param_ext_pe_FRIED UV_Flux s = ok (tt, s') ->
         integrator s' = integrator s
         /\ exists f, get_field (FRIED ++ ["UV_Flux"]) (root s') = ok f
                      /\ f_differentiator f = None).
Proof.
  split; [|split].
  - intros imported b s s' H. apply setup_lostdust_inv in H.
    destruct H as (l & d & ms & dL & msL & fS & fM & dS & H1 & H2 & _ & _ & _
                   & _ & H3 & _ & _ & H4 & H5 & _ & H6).
    exists l, fS, fM. auto 10.
  - intros. eapply setup_ext_pe_FRIED_no_differentiator; eauto.
  - intros UV s s' H. apply param_ext_pe_FRIED_inv in H.
    destruct H as (H1 & _ & f & H2 & _ & _ & H3 & _). eauto.
Qed.

Lemma setup_lostdust_registers_one_euler_instruction_witness :
  setup_lostdust Example.imported false Example.sim_FRIED
  = ok (tt, Example.sim_lostdust)
  /\ integrator Example.sim_lostdust
     = Some (Example.host_instructions
               ++ [mkInstruction expl_1_euler ["lostdust"; "Sigma"]
                     "Lost dust: explicit 1st-order Euler method"]).
Proof.
  assert (Hrun : setup_lostdust Example.imported false Example.sim_FRIED
                 = ok (tt, Example.sim_lostdust)) by (vm_compute; reflexivity).
  split; [exact Hrun|].
  destruct setup_lostdust_registers_one_euler_instruction as (H & _).
  destruct (H _ _ _ _ Hrun) as (l & fS & fM & Hl & Hl' & _).
  vm_compute in Hl. injection Hl as <-. exact Hl'.
Defined.

(** ** The [using_FRIED] flag *)

(** C2, as stated, fails.  On the simulation this module sets up, which
    has the group [EPE.FRIED] and no top-level [FRIED], [setup_lostdust]
    with [using_FRIED] true registers nothing: the host refuses the update
    order of line 129.  On a simulation that also has a top-level [FRIED],
    where it returns, the differentiator it registers is
    [dSigma_lostdust], and what that returns is the negation of
    [dust.S.ext], not of the FRIED term [dust.S.EPE]. *)
Lemma using_FRIED_differentiator_reads_dust_S_ext :
  setup_lostdust Example.imported true Example.sim_FRIED
  = inl (RuntimeError "FRIED is not an attribute of the group")
  /\ setup_lostdust Example.imported true Example.sim_legacy_FRIED
     = ok (tt, Example.sim_legacy_lostdust)
  /\ (exists f, get_field ["lostdust"; "Sigma"] (root Example.sim_legacy_lostdust)
                = ok f
                /\ f_differentiator f = Some dSigma_lostdust_fn)
  /\ get_value ["dust"; "S"; "EPE"] (root Example.sim_legacy_lostdust)
     = ok (VArray2 [[0; 0]; [0; 0]])
  /\ call_differentiator Example.host_differentiator dSigma_lostdust_fn tt tt
       Example.sim_legacy_lostdust
     = ok (VArray2 [[3; 0]; [0; 1 # 2]], Example.sim_legacy_lostdust)
  /\ Np.neg (VArray2 [[0; 0]; [0; 0]]) <> VArray2 [[3; 0]; [0; 1 # 2]].
Proof.
  split; [vm_compute; reflexivity|].
  split; [vm_compute; reflexivity|].
  split; [eexists; split; vm_compute; reflexivity|].
  split; [vm_compute; reflexivity|].
  split; [vm_compute; reflexivity|].
  vm_compute. discriminate.
Qed.

(** C2, as amended.  The flag does not choose the source term: whenever
    [setup_lostdust] returns, with [using_FRIED] true as with false, the
    differentiator registered on [lostdust.Sigma] is [dSigma_lostdust],
    which returns the negation of the generic external source term
    [dust.S.ext]. *)
Theorem using_FRIED_does_not_choose_the_source_term
        (imported : updater_fn -> node -> result value)
        (using_FRIED : bool) (s s' : Frame) :
  setup_lostdust imported using_FRIED s = ok (tt, s') ->
  (exists f, get_field ["lostdust"; "Sigma"] (root s') = ok f
             /\ f_differentiator f = Some dSigma_lostdust_fn)
  /\ forall (host : string -> node -> result value)
            (X Y : Type) (x : X) (y : Y) (ext : value),
       get_value ["dust"; "S"; "ext"] (root s') = ok ext ->
       call_differentiator host dSigma_lostdust_fn x y s' = ok (Np.neg ext, s').
Proof.
  intros H. apply setup_lostdust_inv in H.
  destruct H as (l & d & ms & dL & msL & fS & fM & dS & _ & _ & _ & Hroot & _
                 & _ & HS & _ & _ & HD & _).
  split; [eauto|].
  intros host X Y x y ext Hext. simpl. now apply dSigma_lostdust_run.
Qed.

Lemma using_FRIED_does_not_choose_the_source_term_witness :
  setup_lostdust Example.imported false Example.sim_FRIED
  = ok (tt, Example.sim_lostdust)
  /\ get_value ["dust"; "S"; "ext"] (root Example.sim_lostdust)
     = ok Example.dust_S_ext
  /\ call_differentiator Example.host_differentiator dSigma_lostdust_fn tt tt
       Example.sim_lostdust
     = ok (Np.neg Example.dust_S_ext, Example.sim_lostdust).
Proof.
  assert (H0 : setup_lostdust Example.imported false Example.sim_FRIED
               = ok (tt, Example.sim_lostdust)) by (vm_compute; reflexivity).
  assert (He : get_value ["dust"; "S"; "ext"] (root Example.sim_lostdust)
               = ok Example.dust_S_ext) by (vm_compute; reflexivity).
  split; [exact H0|]. split; [exact He|].
  exact (proj2 (using_FRIED_does_not_choose_the_source_term _ _ _ H0)
           Example.host_differentiator unit unit tt tt _ He).
Defined.



(** * Further properties of the set-up routines *)

(** The example simulation, step by step. *)
Lemma sim_param_run :
  param_ext_pe_FRIED default_UV_Flux Example.sim0 = ok (tt, Example.sim_param).
Proof. vm_compute. reflexivity. Qed.

Lemma sim_FRIED_run :
  setup_ext_pe_FRIED Example.M_sun Example.pow10 Example.resample
    (default_fried_dir "/opt/epe") default_fried_filenames default_SigmaFloor
    Example.sim_param
  = ok (tt, Example.sim_FRIED).
Proof. vm_compute. reflexivity. Qed.

(** ** The axes of the resampled table (lines 50-52) *)

Lemma linspace_length (start stop : Q) (num : nat) :
  List.length (Np.linspace start stop num) = num.
Proof.
  destruct num as [|[|n]]; try reflexivity.
  unfold Np.linspace. rewrite length_app, length_map, length_seq. simpl. lia.
Qed.

Lemma setup_grid_radii_length : List.length setup_grid_radii = 107%nat.
Proof. unfold setup_grid_radii. now rewrite length_app, linspace_length. Qed.

Lemma setup_grid_Sigma_length (pow10 : Q -> Q) :
  List.length (setup_grid_Sigma pow10) = 107%nat.
Proof.
  unfold setup_grid_Sigma, logspace.
  rewrite !length_app, length_map, linspace_length. reflexivity.
Qed.

Lemma setup_grid_Sigma1AU_ok (pow10 : Q -> Q) :
  Np.mul (VArray1 (setup_grid_Sigma pow10)) (VArray1 setup_grid_radii)
  = ok (VArray1 (Np.zip_with Qmult (setup_grid_Sigma pow10) setup_grid_radii)).
Proof.
  unfold Np.mul, Np.binop, Np.bcast1.
  now rewrite setup_grid_Sigma_length, setup_grid_radii_length.
Qed.

Lemma increasing_cons (x y : Q) (t : list Q) :
  increasing (x :: y :: t) <-> x < y /\ increasing (y :: t).
Proof. reflexivity. Qed.

Lemma increasingb_sound (l : list Q) : increasingb l = true -> increasing l.
Proof.
  induction l as [|x l IH]; [intros _; exact I|].
  destruct l as [|y t]; [intros _; exact I|].
  change (increasingb (x :: y :: t))
    with (negb (Qle_bool y x) && increasingb (y :: t)).
  intros H. apply andb_true_iff in H. destruct H as [Hxy Ht].
  apply increasing_cons. split; [|auto].
  apply negb_true_iff in Hxy. apply Qnot_le_lt. intros Hle.
  apply Qle_bool_iff in Hle. congruence.
Qed.

Lemma increasing_map (f : Q -> Q) (l : list Q) :
  (forall x y, x < y -> f x < f y) -> increasing l -> increasing (map f l).
Proof.
  intros Hf. induction l as [|x l IH]; [intros _; exact I|].
  destruct l as [|y t]; [intros _; exact I|].
  intros H. apply increasing_cons in H. destruct H as [Hxy Ht].
  change (map f (x :: y :: t)) with (f x :: f y :: map f t).
  apply increasing_cons. split; [auto|]. apply (IH Ht).
Qed.

Lemma increasing_app (l1 l2 : list Q) :
  increasing l1 -> increasing l2 ->
  (forall x y, In x l1 -> In y l2 -> x < y) ->
  increasing (l1 ++ l2).
Proof.
  induction l1 as [|x l1 IH]; intros H1 H2 H12; [exact H2|].
  destruct l1 as [|y t].
  - destruct l2 as [|z l2]; [exact I|].
    change ([x] ++ z :: l2) with (x :: z :: l2).
    apply increasing_cons. split; [apply H12; now left|exact H2].
  - apply increasing_cons in H1. destruct H1 as [Hxy Ht].
    change ((x :: y :: t) ++ l2) with (x :: y :: (t ++ l2)).
    apply increasing_cons. split; [exact Hxy|].
    apply IH; [exact Ht|exact H2|].
    intros a b Ha Hb. apply H12; [now right|exact Hb].
Qed.

Lemma forallb_In (P : Q -> bool) (l : list Q) (x : Q) :
  forallb P l = true -> In x l -> P x = true.
Proof. intros H Hx. rewrite forallb_forall in H. auto. Qed.

(** X3.  The two axes handed to the resampler have the same number of points,
    so their product [grid_Sigma1AU] is taken point by point; the radius
    axis increases strictly, and so does the surface-density axis as soon
    as [10 ** x] increases and stays between the fixed entries around
    it. *)
Theorem setup_grid_axes (pow10 : Q -> Q) :
  (forall x y, x < y -> pow10 x < pow10 y) ->
  (forall x, -3 <= x -> 1 # 10000 < pow10 x) ->
  (forall x, x <= 3 -> pow10 x < 5000) ->
  List.length setup_grid_radii = List.length (setup_grid_Sigma pow10)
  /\ Np.mul (VArray1 (setup_grid_Sigma pow10)) (VArray1 setup_grid_radii)
     = ok (VArray1 (Np.zip_with Qmult (setup_grid_Sigma pow10) setup_grid_radii))
  /\ increasing setup_grid_radii
  /\ increasing (setup_grid_Sigma pow10).
Proof.
  intros Hmono Hlow Hhigh.
  split; [now rewrite setup_grid_radii_length, setup_grid_Sigma_length|].
  split; [apply setup_grid_Sigma1AU_ok|].
  split; [apply increasingb_sound; vm_compute; reflexivity|].
  unfold setup_grid_Sigma, logspace.
  assert (Hlo : forallb (fun z => Qle_bool (-3) z) (Np.linspace (-3) 3 100) = true)
    by (vm_compute; reflexivity).
  assert (Hhi : forallb (fun z => Qle_bool z 3) (Np.linspace (-3) 3 100) = true)
    by (vm_compute; reflexivity).
  assert (Hinc : increasing (Np.linspace (-3) 3 100))
    by (apply increasingb_sound; vm_compute; reflexivity).
  apply increasing_app.
  - apply increasingb_sound. vm_compute. reflexivity.
  - apply increasing_app.
    + apply increasing_map; assumption.
    + apply increasingb_sound. vm_compute. reflexivity.
    + intros x y Hx Hy. apply in_map_iff in Hx. destruct Hx as (z & <- & Hz).
      apply Qlt_le_trans with 5000.
      * apply Hhigh. apply Qle_bool_iff.
        apply (forallb_In (fun z => Qle_bool z 3) _ _ Hhi Hz).
      * destruct Hy as [<-|[<-|[]]]; apply Qle_bool_iff; reflexivity.
  - intros x y Hx Hy. apply Qle_lt_trans with (1 # 10000).
    + simpl in Hx.
      repeat (destruct Hx as [<-|Hx]; [apply Qle_bool_iff; reflexivity|]).
      contradiction.
    + apply in_app_or in Hy. destruct Hy as [Hy|Hy].
      * apply in_map_iff in Hy. destruct Hy as (z & <- & Hz).
        apply Hlow. apply Qle_bool_iff.
        apply (forallb_In (fun z => Qle_bool (-3) z) _ _ Hlo Hz).
      * destruct Hy as [<-|[<-|[]]]; reflexivity.
Qed.

Lemma setup_grid_axes_witness :
  List.length setup_grid_radii
  = List.length (setup_grid_Sigma Example.pow10_affine)
  /\ increasing setup_grid_radii
  /\ increasing (setup_grid_Sigma Example.pow10_affine).
Proof.
  assert (Hmono : forall x y, x < y ->
                    Example.pow10_affine x < Example.pow10_affine y).
  { intros x y H. unfold Example.pow10_affine. lra. }
  assert (Hlow : forall x, -3 <= x -> 1 # 10000 < Example.pow10_affine x).
  { intros x H. unfold Example.pow10_affine. lra. }
  assert (Hhigh : forall x, x <= 3 -> Example.pow10_affine x < 5000).
  { intros x H. unfold Example.pow10_affine. lra. }
  destruct (setup_grid_axes Example.pow10_affine Hmono Hlow Hhigh)
    as (H1 & _ & H2 & H3).
  auto.
Defined.

(** ** When the FRIED set-up returns *)

Lemma get_cons_inv (k : string) (p : path) (n c : node) :
  get (k :: p) n = ok c ->
  exists d u ms c0,
    n = NGroup d u ms /\ lookup k ms = Some c0 /\ get p c0 = ok c.
Proof.
  simpl. destruct n as [f|d u ms|o]; try discriminate.
  destruct (lookup k ms) as [c0|] eqn:Hk; try discriminate.
  intros H. exists d, u, ms, c0. auto.
Qed.

Lemma get_nil_inv (n c : node) : get [] n = ok c -> n = c.
Proof. simpl. intros H. now injection H. Qed.

(** [fwd] runs the first statement of the routine in the goal on the
    simulation it is applied to. *)
Ltac fwd_simp :=
  simpl; unfold on_group, on_field, rbind; simpl;
  repeat (first [ rewrite lookup_assoc_set
                | rewrite field_at_assoc_set
                | match goal with
                  | H : lookup ?k ?ms = _ |- context [lookup ?k ?ms] => rewrite H
                  | H : field_at ?k ?ms = _ |- context [field_at ?k ?ms] =>
                      rewrite H
                  | H : setvalue ?v ?f = _ |- context [setvalue ?v ?f] =>
                      rewrite H
                  end ]; simpl).

Ltac fwd_prim :=
  lazymatch goal with
  | |- lift ?r _ = _ =>
      unfold lift;
      first [ rewrite setup_grid_Sigma1AU_ok
            | match goal with H : r = _ |- _ => rewrite H end ];
      reflexivity
  | |- read _ _ = _ =>
      apply read_ok; cbn [root app];
      rewrite ?get_value_skip by reflexivity; eassumption
  | |- emit _ _ = _ => reflexivity
  | |- _ =>
      unfold addgroup, addfield, set_update_order, set_field_updater,
        set_field_differentiator, set_field_value, setattr, write_root;
      cbn [root integrator trace app]; fwd_simp;
      rewrite ?assoc_set_again; reflexivity
  end.

Ltac fwd := eapply eq_trans; [apply bind_ok; fwd_prim | cbv beta iota].

Section Returns.

Variable M_sun : Q.
Variable pow10 : Q -> Q.
Variable resample : ResampleArgs -> result (list (list Q) * Interpolator).

(** The outermost radius of a grid of two cells or more. *)
Lemma last_item_two_cells (rs : list Q) :
  (2 <= List.length rs)%nat ->
  exists x, Np.last_item (VArray1 rs) = ok (VScalar x).
Proof.
  intros Hlen. unfold Np.last_item.
  destruct (rev rs) as [|x l] eqn:E; [|eauto].
  apply (f_equal (@List.length Q)) in E. rewrite length_rev in E.
  simpl in E. lia.
Qed.

(** X4.  [setup_ext_pe_FRIED] returns whenever the simulation has what the
    routine reads ([star.M], the [EPE.FRIED] group with its [UV_Flux],
    a radial grid [grid.r] of two cells or more, [gas.Sigma],
    [dust.Sigma]), the groups it adds fields to ([gas.S], [dust.S]), no
    field in the way of the interpolator, a floor that [gas.SigmaFloor]
    accepts, and the resampler itself returns.  A grid of one cell is left
    out: the host holds a one-entry field as a scalar, which has no last
    entry for line 68 to read. *)
Theorem setup_ext_pe_FRIED_returns
        (dir : string) (files : list string) (floor : value) (s : Frame)
        (star_M Mstar UV gas_Sigma dust_Sigma : value) (rs : list Q)
        (tbl : list (list Q)) (itp : Interpolator)
        (dF dg dgS ddS : string) (uF ug ugS udS : option (list string))
        (msF msg msgS msdS : list (string * node)) :
  get_value ["star"; "M"] (root s) = ok star_M ->
  Np.div star_M (VScalar M_sun) = ok Mstar ->
  get FRIED (root s) = ok (NGroup dF uF msF) ->
  get_value (FRIED ++ ["UV_Flux"]) (root s) = ok UV ->
  field_at "_Interpolator" msF = None ->
  resample (mkResampleArgs dir files Mstar UV setup_grid_radii
              (setup_grid_Sigma pow10)
              (VArray1 (Np.zip_with Qmult (setup_grid_Sigma pow10)
                                    setup_grid_radii)))
  = ok (tbl, itp) ->
  get_value ["grid"; "r"] (root s) = ok (VArray1 rs) ->
  (2 <= List.length rs)%nat ->
  get_value ["gas"; "Sigma"] (root s) = ok gas_Sigma ->
  get ["gas"] (root s) = ok (NGroup dg ug msg) ->
  lookup "S" msg = Some (NGroup dgS ugS msgS) ->
  match field_at "SigmaFloor" msg with
  | Some f => exists f', setvalue floor f = ok f'
  | None => True
  end ->
  get_value ["dust"; "Sigma"] (root s) = ok dust_Sigma ->
  get ["dust"; "S"] (root s) = ok (NGroup ddS udS msdS) ->
  exists s', setup_ext_pe_FRIED M_sun pow10 resample dir files floor s
             = ok (tt, s').
Proof.
  intros HM Hdiv HF HUV Hitp Hres Hr Hlen HgS Hgas HS Hfloor HdS Hdust.
  destruct (last_item_two_cells _ Hlen) as (r_out & Hlast).
  destruct s as [n0 i0 t0]. unfold FRIED in *. cbn [root app] in *.
  apply get_cons_inv in HF. destruct HF as (d & u & ms & cE & -> & HE & HF).
  apply get_cons_inv in HF. destruct HF as (dE & uE & msE & cF & -> & HF & HF').
  apply get_nil_inv in HF'. subst cF.
  apply get_cons_inv in Hgas. destruct Hgas as (d' & u' & ms' & cg & E & Hg & Hg').
  injection E as <- <- <-. apply get_nil_inv in Hg'. subst cg.
  apply get_cons_inv in Hdust. destruct Hdust as (d' & u' & ms' & cd & E & Hd & Hd').
  injection E as <- <- <-.
  apply get_cons_inv in Hd'. destruct Hd' as (dd & ud & msd & cdS & -> & HdS' & Hd').
  apply get_nil_inv in Hd'. subst cdS.
  destruct (field_at "SigmaFloor" msg) as [f|] eqn:Hfl;
    [destruct Hfloor as (f' & Hf')|].
  all: eexists; unfold setup_ext_pe_FRIED, FRIED; repeat fwd; fwd_prim.
Qed.

Lemma bind_err {A B} (c : M A) (k : A -> M B) (s : Frame) (e : error) :
  c s = inl e -> bind c k s = inl e.
Proof. unfold bind. now intros ->. Qed.

(** X6.  Without [param_ext_pe_FRIED] there is no [EPE] group: the set-up
    stops at the read of [sim.EPE.FRIED.UV_Flux] with an attribute error,
    before the resampler is called. *)
Theorem setup_ext_pe_FRIED_needs_param
        (dir : string) (files : list string) (floor : value) (s : Frame)
        (d : string) (u : option (list string)) (ms : list (string * node))
        (star_M Mstar : value) :
  root s = NGroup d u ms ->
  lookup "EPE" ms = None ->
  get_value ["star"; "M"] (root s) = ok star_M ->
  Np.div star_M (VScalar M_sun) = ok Mstar ->
  setup_ext_pe_FRIED M_sun pow10 resample dir files floor s
  = inl (AttributeError "EPE").
Proof.
  intros Hroot HE HM Hdiv. destruct s as [n0 i0 t0]. cbn [root] in *. subst n0.
  unfold setup_ext_pe_FRIED, FRIED.
  do 3 fwd. apply bind_err.
  unfold read, read_root, lift, get_value. simpl. now rewrite HE.
Qed.

End Returns.

Lemma setup_ext_pe_FRIED_returns_witness :
  exists s',
    setup_ext_pe_FRIED Example.M_sun Example.pow10 Example.resample
      (default_fried_dir "/opt/epe") default_fried_filenames default_SigmaFloor
      Example.sim_param
    = ok (tt, s').
Proof.
  eapply setup_ext_pe_FRIED_returns with (UV := VScalar 1000).
  all: try (vm_compute; reflexivity).
  all: try (simpl; lia).
  vm_compute. eexists. reflexivity.
Defined.

Lemma setup_ext_pe_FRIED_needs_param_witness :
  setup_ext_pe_FRIED Example.M_sun Example.pow10 Example.resample
    (default_fried_dir "/opt/epe") default_fried_filenames default_SigmaFloor
    Example.sim0
  = inl (AttributeError "EPE").
Proof.
  eapply setup_ext_pe_FRIED_needs_param; vm_compute; reflexivity.
Defined.

(** ** What the FRIED set-up leaves alone *)

Ltac frame_goal :=
  intros; cbn [root]; simpl;
  repeat (first [ rewrite lookup_assoc_set
                | match goal with
                  | H : String.eqb ?k ?k' = false
                    |- context [String.eqb ?k ?k'] => rewrite H
                  | H : lookup ?k ?ms = _ |- context [lookup ?k ?ms] => rewrite H
                  end ]; simpl);
  reflexivity.

Section Frame.

Variable M_sun : Q.
Variable pow10 : Q -> Q.
Variable resample : ResampleArgs -> result (list (list Q) * Interpolator).

(** Where [setup_ext_pe_FRIED] writes: [EPE.FRIED] (the table, the
    interpolator, [rTrunc], [rLim_in], [MassLoss] and the update order),
    [gas.S.EPE], [dust.S.EPE] and [gas.SigmaFloor].  Every other member
    of the simulation, of [EPE], of [EPE.FRIED], of [gas], [gas.S],
    [dust] and [dust.S] is what it was. *)
Lemma setup_ext_pe_FRIED_writes_only
        (dir : string) (files : list string) (floor : value) (s s' : Frame) :
  setup_ext_pe_FRIED M_sun pow10 resample dir files floor s = ok (tt, s') ->
  integrator s' = integrator s
  /\ (exists d u ms ms', root s = NGroup d u ms /\ root s' = NGroup d u ms')
  /\ (forall k p,
         String.eqb k "EPE" = false -> String.eqb k "gas" = false ->
         String.eqb k "dust" = false ->
         get (k :: p) (root s') = get (k :: p) (root s))
  /\ (forall k p,
         String.eqb k "FRIED" = false ->
         get ("EPE" :: k :: p) (root s') = get ("EPE" :: k :: p) (root s))
  /\ (forall k p,
         String.eqb k "Table" = false -> String.eqb k "_Interpolator" = false ->
         String.eqb k "rTrunc" = false -> String.eqb k "rLim_in" = false ->
         String.eqb k "MassLoss" = false ->
         get (FRIED ++ k :: p) (root s') = get (FRIED ++ k :: p) (root s))
  /\ (forall k p,
         String.eqb k "S" = false -> String.eqb k "SigmaFloor" = false ->
         get ("gas" :: k :: p) (root s') = get ("gas" :: k :: p) (root s))
  /\ (forall k p,
         String.eqb k "S" = false ->
         get ("dust" :: k :: p) (root s') = get ("dust" :: k :: p) (root s))
  /\ (forall g k p,
         g = "gas" \/ g = "dust" -> String.eqb k "EPE" = false ->
         get (g :: "S" :: k :: p) (root s') = get (g :: "S" :: k :: p) (root s)).
Proof.
  unfold setup_ext_pe_FRIED, FRIED. intros H. destruct s as [n0 i0 t0].
  do 6 exec H.
  match type of H with context [let (_, _) := ?p in _] => destruct p as [tbl itp] end.
  repeat exec H.
  all: exec_last H.
  all: split; [reflexivity|].
  all: split; [cbn [root]; do 4 eexists; split; reflexivity|].
  all: do 5 (split; [frame_goal|]).
  all: intros g k p [-> | ->] Hk; frame_goal.
Qed.

Lemma get_value_of_get (p : path) (n n' : node) :
  get p n' = get p n -> get_value p n' = get_value p n.
Proof. unfold get_value. now intros ->. Qed.

(** X9.  The FRIED set-up leaves the host's state alone: the integrator, the
    description and update order of the simulation, every top-level group
    other than [EPE], [gas] and [dust] (so [star] and [grid]), the
    surface densities [gas.Sigma] and [dust.Sigma], every source term
    already in [gas.S] and [dust.S], and the [UV_Flux] it reads. *)
Theorem setup_ext_pe_FRIED_preserves_host_state
        (dir : string) (files : list string) (floor : value) (s s' : Frame) :
  setup_ext_pe_FRIED M_sun pow10 resample dir files floor s = ok (tt, s') ->
  integrator s' = integrator s
  /\ (exists d u ms ms', root s = NGroup d u ms /\ root s' = NGroup d u ms')
  /\ (forall k p,
         String.eqb k "EPE" = false -> String.eqb k "gas" = false ->
         String.eqb k "dust" = false ->
         get (k :: p) (root s') = get (k :: p) (root s))
  /\ get_value ["gas"; "Sigma"] (root s') = get_value ["gas"; "Sigma"] (root s)
  /\ get_value ["dust"; "Sigma"] (root s') = get_value ["dust"; "Sigma"] (root s)
  /\ (forall g k p,
         g = "gas" \/ g = "dust" -> String.eqb k "EPE" = false ->
         get (g :: "S" :: k :: p) (root s') = get (g :: "S" :: k :: p) (root s))
  /\ get (FRIED ++ ["UV_Flux"]) (root s') = get (FRIED ++ ["UV_Flux"]) (root s).
Proof.
  intros H. apply setup_ext_pe_FRIED_writes_only in H.
  destruct H as (Hi & Hroot & Htop & _ & HF & Hgas & Hdust & HS).
  repeat (split; [assumption|]).
  split; [apply get_value_of_get, Hgas; reflexivity|].
  split; [apply get_value_of_get, Hdust; reflexivity|].
  split; [assumption|]. apply HF; reflexivity.
Qed.

(** X11.  The FRIED set-up does not change what the lost-dust differentiator
    returns: it returns a value after the set-up exactly when it did
    before, and the same one. *)
Theorem setup_ext_pe_FRIED_keeps_dSigma_lostdust
        (dir : string) (files : list string) (floor : value) (s s' : Frame)
        (X Y : Type) (x : X) (y : Y) (d : value) :
  setup_ext_pe_FRIED M_sun pow10 resample dir files floor s = ok (tt, s') ->
  (dSigma_lostdust x y s = ok (d, s) <-> dSigma_lostdust x y s' = ok (d, s')).
Proof.
  intros H. apply setup_ext_pe_FRIED_writes_only in H.
  destruct H as (_ & _ & _ & _ & _ & _ & _ & HS).
  assert (Hext : get_value ["dust"; "S"; "ext"] (root s')
                 = get_value ["dust"; "S"; "ext"] (root s))
    by (apply get_value_of_get, HS; [now right|reflexivity]).
  split; intros Hd; apply dSigma_lostdust_inv in Hd;
    destruct Hd as (_ & ext & Hd & ->); apply dSigma_lostdust_run; congruence.
Qed.

(** X10.  What the set-up does with the floor it is given: a [gas.SigmaFloor]
    field keeps its shape and has every entry set to the floor, and
    without such a field the floor becomes a plain attribute of [gas]. *)
Theorem setup_ext_pe_FRIED_sets_SigmaFloor
        (dir : string) (files : list string) (x : Q) (s s' : Frame) :
  setup_ext_pe_FRIED M_sun pow10 resample dir files (VScalar x) s = ok (tt, s') ->
  (exists f, get_field ["gas"; "SigmaFloor"] (root s) = ok f
             /\ f_constant f = false
             /\ get_value ["gas"; "SigmaFloor"] (root s')
                = ok (Np.fill (f_value f) x))
  \/ ((forall f, get_field ["gas"; "SigmaFloor"] (root s) <> ok f)
      /\ get ["gas"; "SigmaFloor"] (root s') = ok (NAttr (PValue (VScalar x)))).
Proof.
  unfold setup_ext_pe_FRIED, FRIED. intros H. destruct s as [n0 i0 t0].
  do 6 exec H.
  match type of H with context [let (_, _) := ?p in _] => destruct p as [tbl itp] end.
  repeat exec H.
  all: exec_last H.
  - left.
    match goal with
    | Hfa : field_at "SigmaFloor" ?ms = Some ?f, Hsv : setvalue _ ?f = inr ?f' |- _ =>
        exists f; unfold field_at in Hfa;
        destruct (lookup "SigmaFloor" ms) as [[f1| |]|] eqn:Hl; try discriminate;
        injection Hfa as ->;
        unfold setvalue in Hsv; destruct (f_constant f) eqn:Hc; [discriminate|];
        simpl in Hsv; injection Hsv as <-
    end.
    split; [unfold get_field; frame_goal|]. split; [reflexivity|].
    unfold get_value. frame_goal.
  - right.
    match goal with
    | Hfa : field_at "SigmaFloor" ?ms = None |- _ =>
        unfold field_at in Hfa
    end.
    split.
    + intros f. unfold get_field. cbn [root]. simpl.
      repeat match goal with
             | H : lookup ?k ?ms = _ |- context [lookup ?k ?ms] => rewrite H
             end.
      simpl.
      match goal with
      | Hfa : match lookup "SigmaFloor" ?ms with _ => _ end = None |- _ =>
          destruct (lookup "SigmaFloor" ms) as [[f1| |]|]; simpl;
          discriminate
      end.
    + frame_goal.
Qed.

End Frame.

Lemma setup_ext_pe_FRIED_preserves_host_state_witness :
  get ["star"] (root Example.sim_FRIED) = get ["star"] (root Example.sim_param)
  /\ get ["dust"; "S"; "ext"] (root Example.sim_FRIED)
     = get ["dust"; "S"; "ext"] (root Example.sim_param).
Proof.
  pose proof sim_FRIED_run as Hrun.
  edestruct setup_ext_pe_FRIED_preserves_host_state
    as (_ & _ & Htop & _ & _ & HS & _); [exact Hrun|].
  split; [apply Htop; reflexivity|apply HS; [now right|reflexivity]].
Defined.

Lemma setup_ext_pe_FRIED_keeps_dSigma_lostdust_witness :
  dSigma_lostdust tt tt Example.sim_param
     = ok (VArray2 [[3; 0]; [0; 1 # 2]], Example.sim_param)
  /\ dSigma_lostdust tt tt Example.sim_FRIED
     = ok (VArray2 [[3; 0]; [0; 1 # 2]], Example.sim_FRIED).
Proof.
  pose proof sim_FRIED_run as Hrun.
  assert (Hd : dSigma_lostdust tt tt Example.sim_param
               = ok (VArray2 [[3; 0]; [0; 1 # 2]], Example.sim_param))
    by (vm_compute; reflexivity).
  split; [exact Hd|].
  exact (proj1 (@setup_ext_pe_FRIED_keeps_dSigma_lostdust
                  _ _ _ _ _ _ _ _ unit unit tt tt _ Hrun) Hd).
Defined.

Lemma setup_ext_pe_FRIED_sets_SigmaFloor_witness :
  get_value ["gas"; "SigmaFloor"] (root Example.sim_FRIED)
     = ok (VArray1 [1 # (10 ^ 100); 1 # (10 ^ 100)]).
Proof.
  pose proof sim_FRIED_run as Hrun.
  edestruct setup_ext_pe_FRIED_sets_SigmaFloor
    as [(f & Hf & _ & Hv)|(Hno & _)]; [exact Hrun| |].
  - vm_compute in Hf. injection Hf as <-. exact Hv.
  - exfalso. eapply Hno. vm_compute. reflexivity.
Defined.

(** ** [param_ext_pe_FRIED] and what follows it *)

Lemma modify_err (p : path) (f : node -> result node) (e : error) :
  forall n c, get p n = ok c -> f c = inl e -> modify p f n = inl e.
Proof.
  induction p as [|k p IH]; intros n c; simpl.
  - intros H. injection H as <-. auto.
  - destruct n as [fl|d u ms|o]; try discriminate.
    destruct (lookup k ms) as [c0|]; try discriminate.
    intros Hg Hf. now rewrite (IH _ _ Hg Hf).
Qed.

Lemma setattr_constant (g : path) (name : string) (v : value) (s : Frame)
      (f : Field) :
  get_field (g ++ [name]) (root s) = ok f ->
  f_constant f = true ->
  setattr g name (PValue v) s = inl (RuntimeError "Field is constant.").
Proof.
  unfold get_field. rewrite get_app. intros Hf Hc.
  destruct (get g (root s)) as [e|c] eqn:Hg; [discriminate|].
  simpl in Hf. destruct c as [f0|d u ms|o]; try discriminate.
  destruct (lookup name ms) as [[f1| |]|] eqn:Hl; try discriminate.
  injection Hf as ->.
  unfold setattr, write_root.
  erewrite modify_err; [reflexivity|exact Hg|].
  simpl. unfold field_at. rewrite Hl. unfold setvalue. now rewrite Hc.
Qed.

Lemma param_ext_pe_FRIED_writes_only (UV_Flux : value) (s s' : Frame) :
  param_ext_pe_FRIED UV_Flux s = ok (tt, s') ->
  forall k p, String.eqb k "EPE" = false ->
              get (k :: p) (root s') = get (k :: p) (root s).
Proof.
  unfold param_ext_pe_FRIED, FRIED. intros H. destruct s as [n0 i0 t0].
  do 2 exec H. exec_last H. frame_goal.
Qed.

(** X1.  [param_ext_pe_FRIED] returns on every simulation.  It leaves [EPE]
    holding the [FRIED] group alone and [FRIED] holding the constant
    field [UV_Flux] alone, whatever [EPE] held before, and it changes no
    other member of the simulation, nor the integrator. *)
Theorem param_ext_pe_FRIED_result
        (UV_Flux : value) (s : Frame)
        (d : string) (u : option (list string)) (ms : list (string * node)) :
  root s = NGroup d u ms ->
  exists s',
    param_ext_pe_FRIED UV_Flux s = ok (tt, s')
    /\ get ["EPE"] (root s')
       = ok (NGroup "external photoevaporation" None
               [("FRIED",
                 NGroup "FRIED grid used to calculate mass loss rates due to external photoevaporation"
                        None
                        [("UV_Flux",
                          NField (mkField UV_Flux None None "UV Flux [G_0]"
                                          true true))])])
    /\ integrator s' = integrator s
    /\ forall k p, String.eqb k "EPE" = false ->
                   get (k :: p) (root s') = get (k :: p) (root s).
Proof.
  intros Hroot. destruct s as [n0 i0 t0]. cbn [root] in Hroot. subst n0.
  eexists. split.
  { unfold param_ext_pe_FRIED. repeat fwd. fwd_prim. }
  cbn [root integrator]. split; [|split; [reflexivity|]]; frame_goal.
Qed.

Lemma param_ext_pe_FRIED_result_witness :
  exists s',
    param_ext_pe_FRIED default_UV_Flux Example.sim_FRIED = ok (tt, s')
    /\ get (FRIED ++ ["Table"]) (root s') = inl (AttributeError "Table")
    /\ get ["grid"; "r"] (root s') = get ["grid"; "r"] (root Example.sim_FRIED).
Proof.
  edestruct (@param_ext_pe_FRIED_result default_UV_Flux Example.sim_FRIED)
    as (s' & Hrun & HE & _ & Hother); [vm_compute; reflexivity|].
  exists s'. split; [exact Hrun|]. split; [|apply Hother; reflexivity].
  unfold FRIED. change (["EPE"; "FRIED"] ++ ["Table"])
    with (["EPE"] ++ ["FRIED"; "Table"]).
  rewrite get_app, HE. reflexivity.
Defined.

(** X2.  The UV flux cannot be changed once registered: after
    [param_ext_pe_FRIED] an assignment to [sim.EPE.FRIED.UV_Flux] is
    refused by the host, and the same holds after [setup_ext_pe_FRIED],
    which leaves the field holding the value it was given. *)
Theorem UV_Flux_is_constant
        (UV_Flux v : value) (s s1 : Frame) :
  param_ext_pe_FRIED UV_Flux s = ok (tt, s1) ->
  get_value (FRIED ++ ["UV_Flux"]) (root s1) = ok UV_Flux
  /\ setattr FRIED "UV_Flux" (PValue v) s1
     = inl (RuntimeError "Field is constant.")
  /\ forall (M_sun : Q) (pow10 : Q -> Q)
            (resample : ResampleArgs -> result (list (list Q) * Interpolator))
            (dir : string) (files : list string) (floor : value) (s2 : Frame),
       setup_ext_pe_FRIED M_sun pow10 resample dir files floor s1 = ok (tt, s2) ->
       get_value (FRIED ++ ["UV_Flux"]) (root s2) = ok UV_Flux
       /\ setattr FRIED "UV_Flux" (PValue v) s2
          = inl (RuntimeError "Field is constant.").
Proof.
  intros H. apply param_ext_pe_FRIED_inv in H.
  destruct H as (_ & _ & f & Hf & Hv & _ & _ & Hc).
  split; [rewrite (get_field_value _ _ Hf); congruence|].
  split; [eapply setattr_constant; eauto|].
  intros M_sun pow10 resample dir files floor s2 H2.
  apply setup_ext_pe_FRIED_writes_only in H2.
  destruct H2 as (_ & _ & _ & _ & HF & _).
  assert (Hf2 : get_field (FRIED ++ ["UV_Flux"]) (root s2) = ok f).
  { unfold get_field in *. rewrite HF by reflexivity. exact Hf. }
  split; [rewrite (get_field_value _ _ Hf2); congruence|].
  eapply setattr_constant; eauto.
Qed.

Lemma UV_Flux_is_constant_witness :
  setattr FRIED "UV_Flux" (PValue (VScalar 3000)) Example.sim_param
     = inl (RuntimeError "Field is constant.")
  /\ setattr FRIED "UV_Flux" (PValue (VScalar 3000)) Example.sim_FRIED
     = inl (RuntimeError "Field is constant.").
Proof.
  destruct (@UV_Flux_is_constant default_UV_Flux (VScalar 3000) _ _
              sim_param_run) as (_ & H1 & H2).
  split; [exact H1|]. exact (proj2 (H2 _ _ _ _ _ _ _ sim_FRIED_run)).
Defined.

(** X5.  The two routines one after the other, on a simulation as the host
    initialises it: they return whenever the simulation has [star.M], a
    radial grid [grid.r] of two cells or more, [gas.Sigma] and
    [dust.Sigma], the groups [gas.S] and [dust.S], a floor that
    [gas.SigmaFloor] accepts, and the resampler returns for the stellar
    mass and UV flux at hand. *)
Theorem param_then_setup_ext_pe_FRIED_returns
        (M_sun : Q) (pow10 : Q -> Q)
        (resample : ResampleArgs -> result (list (list Q) * Interpolator))
        (UV_Flux : value)
        (dir : string) (files : list string) (floor : value) (s : Frame)
        (star_M Mstar gas_Sigma dust_Sigma : value) (rs : list Q)
        (tbl : list (list Q)) (itp : Interpolator)
        (dg dgS ddS : string) (ug ugS udS : option (list string))
        (msg msgS msdS : list (string * node)) :
  get_value ["star"; "M"] (root s) = ok star_M ->
  Np.div star_M (VScalar M_sun) = ok Mstar ->
  resample (mkResampleArgs dir files Mstar UV_Flux setup_grid_radii
              (setup_grid_Sigma pow10)
              (VArray1 (Np.zip_with Qmult (setup_grid_Sigma pow10)
                                    setup_grid_radii)))
  = ok (tbl, itp) ->
  get_value ["grid"; "r"] (root s) = ok (VArray1 rs) ->
  (2 <= List.length rs)%nat ->
  get_value ["gas"; "Sigma"] (root s) = ok gas_Sigma ->
  get ["gas"] (root s) = ok (NGroup dg ug msg) ->
  lookup "S" msg = Some (NGroup dgS ugS msgS) ->
  match field_at "SigmaFloor" msg with
  | Some f => exists f', setvalue floor f = ok f'
  | None => True
  end ->
  get_value ["dust"; "Sigma"] (root s) = ok dust_Sigma ->
  get ["dust"; "S"] (root s) = ok (NGroup ddS udS msdS) ->
  exists s',
    (param_ext_pe_FRIED UV_Flux ;;
     setup_ext_pe_FRIED M_sun pow10 resample dir files floor) s
    = ok (tt, s').
Proof.
  intros HM Hdiv Hres Hr Hlen HgS Hgas HS Hfloor HdS Hdust.
  destruct (last_item_two_cells _ Hlen) as (r_out & Hlast).
  destruct s as [n0 i0 t0]. cbn [root app] in *.
  apply get_cons_inv in Hgas. destruct Hgas as (d & u & ms & cg & -> & Hg & Hg').
  apply get_nil_inv in Hg'. subst cg.
  apply get_cons_inv in Hdust. destruct Hdust as (d' & u' & ms' & cd & E & Hd & Hd').
  injection E as <- <- <-.
  apply get_cons_inv in Hd'. destruct Hd' as (dd & ud & msd & cdS & -> & HdS' & Hd').
  apply get_nil_inv in Hd'. subst cdS.
  destruct (field_at "SigmaFloor" msg) as [f|] eqn:Hfl;
    [destruct Hfloor as (f' & Hf')|].
  all: eexists; unfold param_ext_pe_FRIED.
  all: eapply eq_trans; [apply bind_ok; repeat fwd; fwd_prim|].
  all: unfold setup_ext_pe_FRIED, FRIED; do 3 fwd.
  all: eapply eq_trans;
    [apply bind_ok; apply read_ok; unfold get_value; cbn [root];
     fwd_simp; reflexivity|cbv beta iota].
  all: repeat fwd; fwd_prim.
Qed.

Lemma param_then_setup_ext_pe_FRIED_returns_witness :
  exists s',
    (param_ext_pe_FRIED default_UV_Flux ;;
     setup_ext_pe_FRIED Example.M_sun Example.pow10 Example.resample
       (default_fried_dir "/opt/epe") default_fried_filenames
       default_SigmaFloor) Example.sim0
    = ok (tt, s').
Proof.
  eapply param_then_setup_ext_pe_FRIED_returns.
  all: try (vm_compute; reflexivity).
  all: try (simpl; lia).
  vm_compute. eexists. reflexivity.
Defined.

(** ** The update cycle of the simulation after the FRIED set-up *)

Lemma concat_ok_in {A} (l : list (result (list A))) (plan : list A) (a : A) :
  concat_ok l = ok plan -> In a plan -> exists sub, In (ok sub) l /\ In a sub.
Proof.
  revert plan. induction l as [|r l IH]; intros plan; simpl.
  - intros H. injection H as <-. contradiction.
  - destruct r as [e|sub]; simpl; [discriminate|].
    destruct (concat_ok l) as [e|t]; simpl; [discriminate|].
    intros H Hin. injection H as <-.
    apply in_app_or in Hin. destruct Hin as [Hin|Hin].
    + exists sub. auto.
    + destruct (IH t eq_refl Hin) as (sub' & H1 & H2). exists sub'. auto.
Qed.

Lemma lookup_In (k : string) (ms : list (string * node)) (c : node) :
  lookup k ms = Some c -> In (k, c) ms.
Proof.
  induction ms as [|[k0 c0] ms IH]; simpl; [discriminate|].
  destruct (String.eqb_spec k k0) as [->|Hne].
  - intros H. injection H as <-. now left.
  - intros H. right. auto.
Qed.

(** The fields an update of a group visits all lie in that group. *)
Lemma update_plan_prefix :
  forall (n : node) (pre : path) (plan : list path),
    update_plan pre n = ok plan ->
    forall p, In p plan -> exists q, p = pre ++ q.
Proof.
  fix IH 1. intros n. destruct n as [f|d [order|] ms|o]; intros pre plan H p Hp.
  - simpl in H. injection H as <-. destruct Hp as [<-|[]].
    exists []. now rewrite app_nil_r.
  - assert (Hms : forall k c, In (k, c) ms ->
              forall pre plan, update_plan pre c = ok plan ->
              forall p, In p plan -> exists q, p = pre ++ q).
    { clear - IH. induction ms as [|[k0 c0] ms IHms]; intros k c Hin.
      - destruct Hin.
      - destruct Hin as [E|Hin].
        + injection E as _ <-. exact (IH c0).
        + exact (IHms k c Hin). }
    clear IH. simpl in H.
    destruct (@concat_ok_in _ _ _ _ H Hp) as (sub & Hsub & Hin).
    apply in_map_iff in Hsub. destruct Hsub as (k & Hk & _).
    rewrite lookup_plan_map in Hk.
    destruct (lookup k ms) as [c|] eqn:Hc; [|discriminate].
    apply lookup_In in Hc.
    destruct (Hms k c Hc _ _ Hk p Hin) as (q & ->).
    exists (k :: q). now rewrite <- app_assoc.
  - simpl in H. injection H as <-. destruct Hp.
  - simpl in H. discriminate.
Qed.

Lemma update_plan_in_order (pre : path) (d : string) (order : list string)
      (ms : list (string * node)) (plan : list path) (p : path) :
  update_plan pre (NGroup d (Some order) ms) = ok plan -> In p plan ->
  exists k q, p = pre ++ k :: q /\ In k order.
Proof.
  intros H Hp. simpl in H.
  destruct (@concat_ok_in _ _ _ _ H Hp) as (sub & Hsub & Hin).
  apply in_map_iff in Hsub. destruct Hsub as (k & Hk & Hord).
  rewrite lookup_plan_map in Hk.
  destruct (lookup k ms) as [c|] eqn:Hc; [|discriminate].
  destruct (@update_plan_prefix _ _ _ Hk p Hin) as (q & ->).
  exists k, q. rewrite <- app_assoc. auto.
Qed.

(** What a walk over the fields of a plan records, and what it leaves
    alone. *)
Lemma for_each_update_field_events
      (imported : updater_fn -> node -> result value) (plan : list path) :
  forall s s',
    for_each (update_field imported) plan s = ok (tt, s') ->
    exists evs,
      trace s' = trace s ++ evs
      /\ (forall e, In e evs -> exists p u, e = EUpdate p u /\ In p plan)
      /\ (forall q, ~ In q plan -> get_field q (root s') = get_field q (root s)).
Proof.
  induction plan as [|p plan IH]; intros s s' H; simpl in H.
  - unfold ret in H. injection H as <-. exists []. rewrite app_nil_r.
    split; [reflexivity|]. split; [intros e []|reflexivity].
  - apply bind_inv in H. destruct H as ([] & s1 & H1 & H2).
    apply update_field_inv in H1. destruct H1 as (f & Hf & H1).
    destruct (IH _ _ H2) as (evs & Ht & He & Hg).
    destruct (f_updater f) as [u|].
    + destruct H1 as (v & n' & _ & Hm & ->). cbn [root trace] in *.
      exists (EUpdate p u :: evs).
      split; [rewrite Ht, <- app_assoc; reflexivity|]. split.
      * intros e [<-|Hin]; [exists p, u; split; [reflexivity|now left]|].
        destruct (He e Hin) as (p' & u' & -> & Hin').
        exists p', u'. split; [reflexivity|now right].
      * intros q Hq. rewrite Hg by (intros C; apply Hq; now right).
        eapply get_field_modify_other; [exact Hm|].
        intros ->. apply Hq. now left.
    + subst s1. exists evs. split; [exact Ht|]. split.
      * intros e Hin. destruct (He e Hin) as (p' & u' & -> & Hin').
        exists p', u'. split; [reflexivity|now right].
      * intros q Hq. apply Hg. intros C. apply Hq. now right.
Qed.

(** X19.  [setup_ext_pe_FRIED] does not put its group into the update cycle
    of the simulation: where the update order of the simulation does not
    name [EPE] before the set-up, an update of the simulation after it
    calls no updater of a field under [EPE], and leaves every such field,
    [rLim_in], [rTrunc] and [MassLoss] among them, as the set-up left
    it. *)
Theorem setup_ext_pe_FRIED_not_in_simulation_update
        (M_sun : Q) (pow10 : Q -> Q)
        (resample : ResampleArgs -> result (list (list Q) * Interpolator))
        (imported : updater_fn -> node -> result value)
        (dir : string) (files : list string) (floor : value)
        (s s' s'' : Frame)
        (d : string) (u : option (list string)) (ms : list (string * node)) :
  root s = NGroup d u ms ->
  (forall order, u = Some order -> ~ In "EPE" order) ->
  setup_ext_pe_FRIED M_sun pow10 resample dir files floor s = ok (tt, s') ->
  update imported [] s' = ok (tt, s'') ->
  exists evs,
    trace s'' = trace s' ++ evs
    /\ (forall q v, ~ In (EUpdate ("EPE" :: q) v) evs)
    /\ forall q, get_field ("EPE" :: q) (root s'')
                 = get_field ("EPE" :: q) (root s').
Proof.
  intros Hroot Hord H Hup.
  apply setup_ext_pe_FRIED_writes_only in H.
  destruct H as (_ & (d0 & u0 & ms0 & ms' & R & R') & _).
  rewrite Hroot in R. injection R as <- <- <-.
  unfold update in Hup. apply bind_inv in Hup.
  destruct Hup as (plan & s1 & Hplan & Hrun).
  unfold read_root in Hplan. apply lift_inv in Hplan.
  destruct Hplan as [Hplan ->]. rewrite R' in Hplan.
  cbn [get] in Hplan. unfold rbind, ok in Hplan. cbv beta iota in Hplan.
  assert (Hno : forall q, ~ In ("EPE" :: q) plan).
  { intros q Hq. destruct u as [order|].
    - destruct (@update_plan_in_order _ _ _ _ _ _ Hplan Hq) as (k & q' & E & Hk).
      injection E as <- _. exact (Hord order eq_refl Hk).
    - simpl in Hplan. injection Hplan as <-. exact Hq. }
  apply for_each_update_field_events in Hrun.
  destruct Hrun as (evs & Ht & He & Hg).
  exists evs. split; [exact Ht|]. split.
  - intros q v Hin. destruct (He _ Hin) as (p & u' & E & Hp).
    injection E as <- _. exact (Hno q Hp).
  - intros q. apply Hg, Hno.
Qed.

Lemma setup_ext_pe_FRIED_not_in_simulation_update_witness :
  exists s'',
    update Example.imported [] Example.sim_FRIED = ok (tt, s'')
    /\ get_field (FRIED ++ ["MassLoss"]) (root s'')
       = get_field (FRIED ++ ["MassLoss"]) (root Example.sim_FRIED).
Proof.
  destruct (update Example.imported [] Example.sim_FRIED)
    as [e|[[] s'']] eqn:Hup; [vm_compute in Hup; discriminate|].
  exists s''. split; [reflexivity|].
  edestruct setup_ext_pe_FRIED_not_in_simulation_update
    with (s := Example.sim_param) (imported := Example.imported)
    as (evs & _ & _ & H); [| |exact sim_FRIED_run|exact Hup|].
  - vm_compute. reflexivity.
  - intros order E. injection E as <-. simpl. intuition discriminate.
  - apply H.
Defined.

(** ** The [using_FRIED] flag and the update order *)

Lemma get_value_head (k : string) (p : path) (n : node) (v : value) :
  get_value (k :: p) n = ok v -> exists c, get [k] n = ok c.
Proof.
  unfold get_value. destruct (get (k :: p) n) as [e|c] eqn:H; [discriminate|].
  intros _. apply get_cons_inv in H.
  destruct H as (d & u & ms & c0 & -> & Hk & _).
  exists c0. simpl. now rewrite Hk.
Qed.

(** With [using_FRIED] true the list assigned to [sim.updater] names
    [FRIED]; where the simulation has [star] and [grid] but no attribute
    of that name, the host refuses the assignment. *)
Lemma setup_lostdust_true_raises
      (imported : updater_fn -> node -> result value)
      (d : string) (u : option (list string)) (ms : list (string * node))
      (i : option (list Instruction)) (t : list event)
      (c1 c2 : node) (dust_Sigma : value) :
  lookup "star" ms = Some c1 ->
  lookup "grid" ms = Some c2 ->
  lookup "FRIED" ms = None ->
  get_value ["dust"; "Sigma"] (NGroup d u ms) = ok dust_Sigma ->
  setup_lostdust imported true (mkFrame (NGroup d u ms) i t)
  = inl (RuntimeError "FRIED is not an attribute of the group").
Proof.
  intros Hstar Hgrid HF HdS. unfold setup_lostdust.
  do 4 fwd. apply bind_err.
  unfold set_update_order, write_root. cbn [root integrator trace app].
  fwd_simp. reflexivity.
Qed.

(** X12.  With [using_FRIED] true, [setup_lostdust] assigns to [sim.updater]
    a list that names a top-level group [FRIED] (line 129).  On a
    simulation that has [star], [grid] and [dust.Sigma] but no top-level
    [FRIED], the host refuses that assignment and the routine raises a
    [RuntimeError] there: it does not reach the lines that register the
    differentiator, the updater and the integration instruction. *)
Theorem setup_lostdust_using_FRIED_needs_top_level_FRIED
        (imported : updater_fn -> node -> result value) (s : Frame)
        (c1 c2 : node) (dust_Sigma : value) :
  get ["star"] (root s) = ok c1 ->
  get ["grid"] (root s) = ok c2 ->
  (forall c, get ["FRIED"] (root s) <> ok c) ->
  get_value ["dust"; "Sigma"] (root s) = ok dust_Sigma ->
  setup_lostdust imported true s
  = inl (RuntimeError "FRIED is not an attribute of the group").
Proof.
  intros Hstar Hgrid Hno HdS. destruct s as [n i t]. cbn [root] in *.
  apply get_cons_inv in Hstar.
  destruct Hstar as (d & u & ms & c & -> & Hstar & _).
  simpl in Hgrid. destruct (lookup "grid" ms) as [cg|] eqn:Hg; [|discriminate].
  eapply setup_lostdust_true_raises; eauto.
  destruct (lookup "FRIED" ms) as [cF|] eqn:HF; [|reflexivity].
  exfalso. apply (Hno cF). simpl. now rewrite HF.
Qed.

Lemma setup_lostdust_using_FRIED_needs_top_level_FRIED_witness :
  get ["FRIED"] (root Example.sim0) = inl (AttributeError "FRIED")
  /\ setup_lostdust Example.imported true Example.sim0
     = inl (RuntimeError "FRIED is not an attribute of the group").
Proof.
  split; [reflexivity|].
  eapply setup_lostdust_using_FRIED_needs_top_level_FRIED.
  - vm_compute. reflexivity.
  - vm_compute. reflexivity.
  - intros c. vm_compute. discriminate.
  - vm_compute. reflexivity.
Defined.

(** X13.  The group this module creates is [sim.EPE.FRIED]: neither
    [param_ext_pe_FRIED] nor [setup_ext_pe_FRIED] adds a top-level
    [FRIED].  So after them, on a simulation that had no such group
    before, [setup_lostdust] with [using_FRIED] true raises the
    [RuntimeError] of the refused assignment to [sim.updater] (line 129). *)
Theorem setup_lostdust_using_FRIED_fails_after_this_setup
        (M_sun : Q) (pow10 : Q -> Q)
        (resample : ResampleArgs -> result (list (list Q) * Interpolator))
        (imported : updater_fn -> node -> result value)
        (UV_Flux : value) (dir : string) (files : list string) (floor : value)
        (s s1 s2 : Frame) :
  (forall c, get ["FRIED"] (root s) <> ok c) ->
  param_ext_pe_FRIED UV_Flux s = ok (tt, s1) ->
  setup_ext_pe_FRIED M_sun pow10 resample dir files floor s1 = ok (tt, s2) ->
  setup_lostdust imported true s2
  = inl (RuntimeError "FRIED is not an attribute of the group").
Proof.
  intros Hno H1 H2.
  pose proof (@param_ext_pe_FRIED_writes_only _ _ _ H1 "FRIED" [] eq_refl) as E1.
  pose proof H2 as P. apply setup_ext_pe_FRIED_inv in P.
  destruct P as [star_M Mstar UV Sigma1AU r r_out gas_Sigma dust_Sigma tbl itp
                 dF dT dgS ddS ugS udS msF msT msgS msdS
                 _ HM _ _ _ Hr _ _ HdS _ _ _ _ _ _ _ _ _ _ _ _ _ _ _ _].
  apply setup_ext_pe_FRIED_writes_only in H2.
  destruct H2 as (_ & (d & u & ms & ms' & R1 & R2) & Htop & _ & _ & _ & Hdust & _).
  apply get_value_head in HM. destruct HM as (c1 & Hstar).
  apply get_value_head in Hr. destruct Hr as (c2 & Hgrid).
  rewrite <- (Htop "star" [] eq_refl eq_refl eq_refl) in Hstar.
  rewrite <- (Htop "grid" [] eq_refl eq_refl eq_refl) in Hgrid.
  rewrite <- (@get_value_of_get _ _ _ (Hdust "Sigma" [] eq_refl)) in HdS.
  destruct s2 as [n2 i2 t2]. cbn [root] in *. subst n2.
  simpl in Hstar, Hgrid.
  destruct (lookup "star" ms') as [cs|] eqn:Hs; [|discriminate].
  destruct (lookup "grid" ms') as [cg|] eqn:Hg; [|discriminate].
  eapply setup_lostdust_true_raises; eauto.
  destruct (lookup "FRIED" ms') as [cF|] eqn:HF; [|reflexivity].
  exfalso. apply (Hno cF). rewrite <- E1.
  rewrite <- (Htop "FRIED" [] eq_refl eq_refl eq_refl).
  simpl. now rewrite HF.
Qed.

Lemma setup_lostdust_using_FRIED_fails_after_this_setup_witness :
  setup_lostdust Example.imported true Example.sim_FRIED
  = inl (RuntimeError "FRIED is not an attribute of the group").
Proof.
  eapply setup_lostdust_using_FRIED_fails_after_this_setup
    with (s := Example.sim0);
    [|exact sim_param_run|exact sim_FRIED_run].
  intros c. vm_compute. discriminate.
Defined.

(** ** The total lost mass *)

Lemma is_zero_eq (x : Q) : Np.is_zero x = true <-> x == 0.
Proof. unfold Np.is_zero. apply Qeq_bool_iff. Qed.

Lemma is_zero_mul_r (x y : Q) : Np.is_zero y = true -> Np.is_zero (x * y) = true.
Proof. rewrite !is_zero_eq. intros ->. ring. Qed.

Lemma is_zero_qsum (l : list Q) :
  forallb Np.is_zero l = true -> Np.is_zero (Np.qsum l) = true.
Proof.
  induction l as [|x l IH]; simpl; [reflexivity|].
  intros H. apply andb_true_iff in H. destruct H as [Hx Hl].
  apply is_zero_eq in Hx. specialize (IH Hl). apply is_zero_eq in IH.
  apply is_zero_eq. rewrite Hx, IH. ring.
Qed.

Lemma forallb_map_zero (f : Q -> Q) (l : list Q) :
  (forall x, Np.is_zero (f x) = true) -> forallb Np.is_zero (map f l) = true.
Proof. intros H. induction l; simpl; [reflexivity|]. now rewrite H. Qed.

Lemma forallb_map_mul_r (x : Q) (l : list Q) :
  forallb Np.is_zero l = true -> forallb Np.is_zero (map (Qmult x) l) = true.
Proof.
  induction l as [|y l IH]; simpl; [reflexivity|].
  intros H. apply andb_true_iff in H. destruct H as [Hy Hl].
  now rewrite is_zero_mul_r, IH.
Qed.

Lemma zip_with_mul_zero_r (a b : list Q) :
  forallb Np.is_zero b = true ->
  forallb Np.is_zero (Np.zip_with Qmult a b) = true.
Proof.
  revert b. induction a as [|x a IH]; intros [|y b]; simpl; try reflexivity.
  intros H. apply andb_true_iff in H. destruct H as [Hy Hb].
  now rewrite is_zero_mul_r, IH.
Qed.

Lemma bcast1_mul_zero_r (a b c : list Q) :
  Np.bcast1 Qmult a b = ok c ->
  forallb Np.is_zero b = true -> forallb Np.is_zero c = true.
Proof.
  unfold Np.bcast1. intros H Hb.
  destruct (Nat.eqb (List.length a) (List.length b)).
  - injection H as <-. now apply zip_with_mul_zero_r.
  - destruct a as [|x [|x' a]].
    + destruct b as [|y [|y' b]]; try discriminate.
      injection H as <-. reflexivity.
    + injection H as <-. now apply forallb_map_mul_r.
    + destruct b as [|y [|y' b]]; try discriminate.
      injection H as <-. simpl in Hb. rewrite andb_true_r in Hb.
      apply (forallb_map_zero (fun z => z * y) (x :: x' :: a)).
      intros z. now apply is_zero_mul_r.
Qed.

Lemma all_ok_cons_inv {A} (r : result A) (l : list (result A)) (c : list A) :
  Np.all_ok (r :: l) = ok c ->
  exists a t, r = ok a /\ Np.all_ok l = ok t /\ c = a :: t.
Proof.
  simpl. destruct r as [e|a]; simpl; [discriminate|].
  destruct (Np.all_ok l) as [e|t]; simpl; [discriminate|].
  intros H. injection H as <-. eauto.
Qed.

Lemma rows_mul_zero_left (a : list Q) (n c : list (list Q)) :
  Np.all_ok (map (Np.bcast1 Qmult a) n) = ok c ->
  forallb (forallb Np.is_zero) n = true ->
  forallb (forallb Np.is_zero) c = true.
Proof.
  revert c. induction n as [|s n IH]; intros c; simpl.
  - intros H _. injection H as <-. reflexivity.
  - intros H Hn. apply andb_true_iff in Hn. destruct Hn as [Hs Hn].
    apply all_ok_cons_inv in H. destruct H as (r & t & Hr & Ht & ->).
    simpl. rewrite (bcast1_mul_zero_r _ _ Hr Hs). now apply IH.
Qed.

Lemma rows_mul_zero_right (m : list (list Q)) (b : list Q) (c : list (list Q)) :
  Np.all_ok (map (fun r => Np.bcast1 Qmult r b) m) = ok c ->
  forallb Np.is_zero b = true ->
  forallb (forallb Np.is_zero) c = true.
Proof.
  revert c. induction m as [|s m IH]; intros c; simpl.
  - intros H _. injection H as <-. reflexivity.
  - intros H Hb.
    apply all_ok_cons_inv in H. destruct H as (r & t & Hr & Ht & ->).
    simpl. rewrite (bcast1_mul_zero_r _ _ Hr Hb). now apply IH.
Qed.

Lemma zip_rows_mul_zero (m n c : list (list Q)) :
  Np.all_ok (Np.zip_rows Qmult m n) = ok c ->
  forallb (forallb Np.is_zero) n = true ->
  forallb (forallb Np.is_zero) c = true.
Proof.
  revert n c. induction m as [|r m IH]; intros [|s n] c; simpl;
    try (intros H _; injection H as <-; reflexivity).
  intros H Hn. apply andb_true_iff in Hn. destruct Hn as [Hs Hn].
  apply all_ok_cons_inv in H. destruct H as (a & t & Ha & Ht & ->).
  simpl. rewrite (bcast1_mul_zero_r _ _ Ha Hs). eapply IH; eauto.
Qed.

(** A product with an all-zero array is all zero, whatever the shapes. *)
Lemma mul_all_zero_r (A v prod : value) :
  Np.mul A v = ok prod -> Np.all_zero v = true -> Np.all_zero prod = true.
Proof.
  unfold Np.mul. destruct A as [x|a|m], v as [y|b|n]; simpl; intros H Hv.
  - injection H as <-. now apply is_zero_mul_r.
  - injection H as <-. now apply forallb_map_mul_r.
  - injection H as <-. simpl.
    induction n as [|s n IH]; simpl in *; [reflexivity|].
    apply andb_true_iff in Hv. destruct Hv as [Hs Hn].
    now rewrite forallb_map_mul_r, IH.
  - injection H as <-. apply forallb_map_zero. intros z. now apply is_zero_mul_r.
  - destruct (Np.bcast1 Qmult a b) as [e|c] eqn:Hc; simpl in H; [discriminate|].
    injection H as <-. eapply bcast1_mul_zero_r; eauto.
  - destruct (Np.all_ok (map (Np.bcast1 Qmult a) n)) as [e|c] eqn:Hc;
      simpl in H; [discriminate|].
    injection H as <-. eapply rows_mul_zero_left; eauto.
  - injection H as <-. simpl.
    induction m as [|s m IH]; simpl; [reflexivity|].
    rewrite IH, andb_true_r. apply forallb_map_zero.
    intros z. now apply is_zero_mul_r.
  - destruct (Np.all_ok (map (fun r => Np.bcast1 Qmult r b) m)) as [e|c] eqn:Hc;
      simpl in H; [discriminate|].
    injection H as <-. eapply rows_mul_zero_right; eauto.
  - destruct (Np.bcast2 Qmult m n) as [e|c] eqn:Hc; simpl in H; [discriminate|].
    injection H as <-. simpl. unfold Np.bcast2 in Hc.
    destruct (Nat.eqb (List.length m) (List.length n)).
    + eapply zip_rows_mul_zero; eauto.
    + destruct m as [|r [|r' m]].
      * destruct n as [|s [|s' n]]; try discriminate.
        injection Hc as <-. reflexivity.
      * eapply rows_mul_zero_left; eauto.
      * destruct n as [|s [|s' n]]; try discriminate.
        simpl in Hv. rewrite andb_true_r in Hv.
        eapply rows_mul_zero_right; eauto.
Qed.

Lemma all_zero_sum_last (v : value) :
  Np.all_zero v = true -> Np.all_zero (Np.sum_last v) = true.
Proof.
  destruct v as [x|a|m]; simpl; auto using is_zero_qsum.
  induction m as [|r m IH]; simpl; [reflexivity|].
  intros H. apply andb_true_iff in H. destruct H as [Hr Hm].
  now rewrite is_zero_qsum, IH.
Qed.

Lemma sum_all_zero (v : value) :
  Np.all_zero v = true -> exists m, Np.sum v = VScalar m /\ Np.is_zero m = true.
Proof.
  destruct v as [x|a|m]; simpl; intros H; eexists; split; try reflexivity.
  - exact H.
  - now apply is_zero_qsum.
  - apply is_zero_qsum.
    induction m as [|r m IH]; simpl; [reflexivity|].
    simpl in H. apply andb_true_iff in H. destruct H as [Hr Hm].
    now rewrite is_zero_qsum, IH.
Qed.

Lemma all_zero_fill (old : value) (m : Q) :
  Np.is_zero m = true -> Np.all_zero (Np.fill old m) = true.
Proof.
  intros Hm. destruct old as [x|a|n]; simpl; [exact Hm| |].
  - induction a; simpl; [reflexivity|]. now rewrite Hm.
  - induction n as [|r n IH]; simpl; [reflexivity|]. rewrite IH, andb_true_r.
    induction r; simpl; [reflexivity|]. now rewrite Hm.
Qed.

Lemma M_lostdust_inv_full (s s' : Frame) (m : value) :
  M_lostdust s = ok (m, s') ->
  exists A Sigma prod,
    get_value ["grid"; "A"] (root s) = ok A
    /\ get_value ["lostdust"; "Sigma"] (root s) = ok Sigma
    /\ Np.mul A (Np.sum_last Sigma) = ok prod
    /\ m = Np.sum prod.
Proof.
  unfold M_lostdust. intros H.
  apply bind_inv in H. destruct H as (A & s1 & HA & H).
  apply read_inv in HA. destruct HA as [-> HA].
  apply bind_inv in H. destruct H as (Sg & s1 & HS & H).
  apply read_inv in HS. destruct HS as [-> HS].
  apply bind_inv in H. destruct H as (prod & s1 & Hp & H).
  apply lift_inv in Hp. destruct Hp as [Hp ->].
  unfold ret in H. injection H as <- <-. eauto 10.
Qed.

Lemma concat_ok_app {A} (l1 l2 : list (result (list A))) (plan : list A) :
  concat_ok (l1 ++ l2) = ok plan ->
  exists p1 p2, concat_ok l1 = ok p1 /\ concat_ok l2 = ok p2 /\ plan = p1 ++ p2.
Proof.
  revert plan. induction l1 as [|r l1 IH]; intros plan; simpl.
  - intros H. exists [], plan. auto.
  - destruct r as [e|a]; simpl; [discriminate|].
    destruct (concat_ok (l1 ++ l2)) as [e|t] eqn:Ht; simpl; [discriminate|].
    intros H. injection H as <-.
    destruct (IH t eq_refl) as (p1 & p2 & -> & H2 & ->).
    exists (a ++ p1), p2. simpl. now rewrite app_assoc.
Qed.

Lemma update_plan_last (pre : path) d (order : list string) (k : string)
      (ms : list (string * node)) (c : node) (plan : list path) :
  update_plan pre (NGroup d (Some (order ++ [k])) ms) = ok plan ->
  lookup k ms = Some c ->
  exists p1 p2, plan = p1 ++ p2 /\ update_plan (pre ++ [k]) c = ok p2.
Proof.
  simpl. rewrite map_app. intros H Hk.
  apply concat_ok_app in H. destruct H as (p1 & p2 & _ & H2 & ->).
  exists p1, p2. split; [reflexivity|].
  simpl in H2. rewrite lookup_plan_map, Hk in H2.
  destruct (update_plan (pre ++ [k]) c) as [e|q]; simpl in H2; [discriminate|].
  injection H2 as <-. now rewrite app_nil_r.
Qed.

Lemma for_each_app {A} (f : A -> M unit) (l1 l2 : list A) (s s' : Frame) :
  for_each f (l1 ++ l2) s = ok (tt, s') ->
  exists s1, for_each f l1 s = ok (tt, s1) /\ for_each f l2 s1 = ok (tt, s').
Proof.
  revert s. induction l1 as [|a l1 IH]; intros s; simpl.
  - intros H. exists s. auto.
  - intros H. apply bind_inv in H. destruct H as ([] & s0 & Ha & H).
    destruct (IH _ H) as (s1 & H1 & H2). exists s1. split; [|exact H2].
    erewrite bind_ok by exact Ha. exact H1.
Qed.

Lemma modify_ok (p : path) (f : node -> result node) :
  forall n c c', get p n = ok c -> f c = ok c' ->
                 exists n', modify p f n = ok n'.
Proof.
  induction p as [|k p IH]; intros n c c'; simpl.
  - intros H. injection H as <-. eauto.
  - destruct n as [fl|d u ms|o]; try discriminate.
    destruct (lookup k ms) as [c0|]; try discriminate.
    intros Hg Hf. destruct (IH _ _ _ Hg Hf) as (n' & ->). simpl. eauto.
Qed.

Lemma get_modify_field_other (p : path) (g : Field -> result Field) :
  forall (q : path) (n n' : node) (c : node),
    modify p (on_field g) n = ok n' -> q <> p ->
    (forall d u ms, c <> NGroup d u ms) ->
    get q n = ok c -> get q n' = ok c.
Proof.
  intros q n n' c Hm Hq Hc Hg. destruct c as [f|d u ms|o].
  - assert (H : get_field q n = ok f) by (unfold get_field; now rewrite Hg).
    assert (E : get_field q n' = get_field q n)
      by (eapply get_field_modify_other; eauto).
    rewrite <- E in H.
    unfold get_field in H. destruct (get q n') as [e|[f'| |]]; simpl in H;
      try discriminate. now injection H as ->.
  - exfalso. eapply Hc. reflexivity.
  - eapply get_attr_modify_field; eauto.
Qed.

Lemma get_value_modify_field_other (p q : path) (g : Field -> result Field)
      (n n' : node) (v : value) :
  modify p (on_field g) n = ok n' -> q <> p ->
  get_value q n = ok v -> get_value q n' = ok v.
Proof.
  intros Hm Hq. unfold get_value.
  destruct (get q n) as [e|c] eqn:Hg; simpl; [discriminate|].
  destruct c as [f|d u ms|o]; try discriminate.
  - assert (E : get q n' = ok (NField f))
      by (eapply get_modify_field_other; eauto; intros; discriminate).
    now rewrite E.
  - destruct o as [w|i]; try discriminate.
    assert (E : get q n' = ok (NAttr (PValue w)))
      by (eapply get_modify_field_other; eauto; intros; discriminate).
    now rewrite E.
Qed.

(** X14.  After [setup_lostdust] the tracker starts from nothing: every entry
    of [lostdust.Sigma] is zero, and so is [lostdust.M], which the update
    cycle at the end of the routine has recomputed from it. *)
Theorem setup_lostdust_starts_from_zero
        (imported : updater_fn -> node -> result value)
        (using_FRIED : bool) (s s' : Frame) :
  setup_lostdust imported using_FRIED s = ok (tt, s') ->
  exists Sigma m,
    get_value ["lostdust"; "Sigma"] (root s') = ok Sigma
    /\ Np.all_zero Sigma = true
    /\ get_value ["lostdust"; "M"] (root s') = ok m
    /\ Np.all_zero m = true.
Proof.
  unfold setup_lostdust. intros H. destruct s as [n0 i0 t0].
  destruct using_FRIED.
  all: do 10 exec H.
  all: unfold update in H; apply bind_inv in H;
    destruct H as (plan & s1 & Hplan & Hrun).
  all: unfold read_root in Hplan; apply lift_inv in Hplan;
    destruct Hplan as [Hplan ->].
  all: cbn [root get] in Hplan; unfold rbind, ok in Hplan.
  1: change ["star"; "grid"; "FRIED"; "gas"; "dust"; "lostdust"]
       with (["star"; "grid"; "FRIED"; "gas"; "dust"] ++ ["lostdust"]) in Hplan.
  2: change ["star"; "grid"; "gas"; "dust"; "lostdust"]
       with (["star"; "grid"; "gas"; "dust"] ++ ["lostdust"]) in Hplan.
  all: eapply update_plan_last in Hplan;
    [|rewrite lookup_assoc_set; reflexivity].
  all: destruct Hplan as (p1 & p2 & -> & Hp2).
  all: simpl in Hp2; injection Hp2 as <-.
  all: apply for_each_app in Hrun; destruct Hrun as (s1 & Hhost & Hlast).
  all: apply for_each_update_field_steps in Hhost;
    apply field_steps_frame in Hhost; cbn [root integrator trace] in Hhost;
    destruct Hhost as (_ & _ & _ & _ & I5 & I6).
  all: edestruct (I5 ["lostdust"; "M"]) as (fM & HM & RM & _);
    [unfold get_field; eval_goal; reflexivity|]; simpl in RM.
  all: epose proof (I6 ["lostdust"; "Sigma"] _) as HS;
    unfold get_field in HS at 1; simpl in HS;
    repeat (rewrite lookup_assoc_set in HS; simpl in HS);
    specialize (HS eq_refl eq_refl).
  all: simpl in Hlast; apply bind_inv in Hlast;
    destruct Hlast as ([] & s2 & Hupd & Hret);
    unfold ret in Hret; injection Hret as <-.
  all: apply update_field_inv in Hupd; destruct Hupd as (f & Hf & Hupd);
    rewrite HM in Hf; injection Hf as <-; rewrite RM in Hupd;
    destruct Hupd as (v & n' & Hcall & Hm & ->).
  all: simpl in Hcall; apply M_lostdust_inv_full in Hcall;
    cbn [root] in Hcall;
    destruct Hcall as (A & Sg & prod & _ & HSg & Hprod & ->).
  all: rewrite (get_field_value _ _ HS) in HSg; simpl in HSg;
    injection HSg as <-.
  all: pose proof (mul_all_zero_r _ _ Hprod
                     (all_zero_sum_last _ (all_zero_zeros_like _))) as Hz;
    apply sum_all_zero in Hz; destruct Hz as (m & Hsum & Hm0).
  all: edestruct get_field_modify_same as (f1 & f1' & G1 & G2 & G3);
    [exact Hm|]; rewrite HM in G1; injection G1 as <-.
  all: rewrite Hsum in G2; unfold setvalue in G2;
    destruct (f_constant fM); [discriminate|];
    simpl in G2; injection G2 as <-.
  all: eexists; eexists; cbn [root].
  all: split; [eapply get_value_modify_field_other;
               [exact Hm|discriminate|apply get_field_value; exact HS]|].
  all: split; [apply all_zero_zeros_like|].
  all: split; [apply get_field_value; exact G3|].
  all: simpl; now apply all_zero_fill.
Qed.

Lemma setup_lostdust_starts_from_zero_witness :
  get_value ["lostdust"; "Sigma"] (root Example.sim_lostdust)
  = ok (VArray2 [[0; 0]; [0; 0]])
  /\ exists m, get_value ["lostdust"; "M"] (root Example.sim_lostdust) = ok m
               /\ Np.all_zero m = true.
Proof.
  assert (Hrun : setup_lostdust Example.imported false Example.sim_FRIED
                 = ok (tt, Example.sim_lostdust)) by (vm_compute; reflexivity).
  destruct (setup_lostdust_starts_from_zero _ _ _ Hrun)
    as (Sg & m & HS & _ & Hm & Hz).
  split; [|eauto]. vm_compute. reflexivity.
Defined.

(** X15.  One update cycle of the [lostdust] group, once [setup_lostdust] has
    registered [M_lostdust] on [lostdust.M]: it returns, sets [M] to the
    area-weighted sum of the current [lostdust.Sigma], calls [M_lostdust]
    once, and leaves [Sigma] as it was. *)
Theorem lostdust_update_recomputes_M
        (imported : updater_fn -> node -> result value) (s : Frame)
        (dL : string) (msL : list (string * node)) (fM : Field) (m0 : Q)
        (A : list Q) (Sigma : list (list Q)) :
  get ["lostdust"] (root s) = ok (NGroup dL (Some ["M"]) msL) ->
  lookup "M" msL = Some (NField fM) ->
  f_updater fM = Some M_lostdust_fn ->
  f_constant fM = false ->
  f_value fM = VScalar m0 ->
  get_value ["grid"; "A"] (root s) = ok (VArray1 A) ->
  get_value ["lostdust"; "Sigma"] (root s) = ok (VArray2 Sigma) ->
  List.length A = List.length Sigma ->
  exists s' m,
    update imported ["lostdust"] s = ok (tt, s')
    /\ get_value ["lostdust"; "M"] (root s') = ok (VScalar m)
    /\ m == area_weighted_sum A Sigma
    /\ get_value ["lostdust"; "Sigma"] (root s') = ok (VArray2 Sigma)
    /\ trace s' = trace s ++ [EUpdate ["lostdust"; "M"] M_lostdust_fn].
Proof.
  intros HL HM Hu Hc Hv HA HS Hlen.
  assert (HfM : get_field ["lostdust"; "M"] (root s) = ok fM).
  { unfold get_field. change ["lostdust"; "M"] with (["lostdust"] ++ ["M"]).
    rewrite get_app, HL. simpl. now rewrite HM. }
  set (q := Np.qsum (Np.zip_with Qmult A (map Np.qsum Sigma))).
  set (st := mkFrame (root s) (integrator s)
                     (trace s ++ [EUpdate ["lostdust"; "M"] M_lostdust_fn])).
  assert (Hcall : M_lostdust st = ok (VScalar q, st))
    by (apply M_lostdust_run; assumption).
  set (fM' := mkField (VScalar q) (f_updater fM) (f_differentiator fM)
                      (f_description fM) (f_constant fM) (f_save fM)).
  assert (Hset : setvalue (VScalar q) fM = ok fM').
  { unfold setvalue, fM'. rewrite Hv.
    destruct (f_constant fM); [discriminate Hc|reflexivity]. }
  destruct (modify_ok ["lostdust"; "M"] (on_field (setvalue (VScalar q)))
              (root s) (c := NField fM) (c' := NField fM')) as (n' & Hn').
  { unfold get_field in HfM.
    destruct (get ["lostdust"; "M"] (root s)) as [e|[f| |]]; simpl in HfM;
      try discriminate. now injection HfM as ->. }
  { simpl. now rewrite Hset. }
  exists (mkFrame n' (integrator s)
                  (trace s ++ [EUpdate ["lostdust"; "M"] M_lostdust_fn])), q.
  split.
  - unfold update.
    eapply eq_trans; [apply bind_ok|].
    { unfold read_root, lift. rewrite HL. unfold rbind, ok.
      rewrite update_plan_fields; [reflexivity|].
      intros k [<-|[]]. eauto. }
    simpl. eapply eq_trans; [apply bind_ok|reflexivity].
    unfold update_field.
    eapply eq_trans; [apply bind_ok|].
    { unfold read_field, read_root, lift. now rewrite HfM. }
    cbv beta. rewrite Hu.
    eapply eq_trans; [apply bind_ok; reflexivity|]. cbv beta.
    eapply eq_trans; [apply bind_ok; exact Hcall|]. cbv beta.
    unfold set_field_value, write_root, st. cbn [root integrator trace].
    now rewrite Hn'.
  - cbn [root trace].
    edestruct get_field_modify_same as (f1 & f1' & G1 & G2 & G3); [exact Hn'|].
    rewrite HfM in G1. injection G1 as <-. rewrite Hset in G2.
    injection G2 as <-.
    split; [rewrite (get_field_value _ _ G3); reflexivity|].
    split; [apply qsum_zip_area|]. split; [|reflexivity].
    eapply get_value_modify_field_other; [exact Hn'|discriminate|exact HS].
Qed.

Lemma lostdust_update_recomputes_M_witness :
  exists s' m,
    update Example.imported ["lostdust"] Example.sim_running = ok (tt, s')
    /\ get_value ["lostdust"; "M"] (root s') = ok (VScalar m)
    /\ m == 44.
Proof.
  edestruct (@lostdust_update_recomputes_M Example.imported Example.sim_running)
    with (A := [3; 5]) (Sigma := [[1; 2]; [3; 4]])
    as (s' & m & Hrun & Hm & Hsum & _).
  all: try (vm_compute; reflexivity).
  exists s', m. split; [exact Hrun|]. split; [exact Hm|].
  rewrite Hsum. vm_compute. reflexivity.
Defined.

Lemma qsum_nonneg (l : list Q) :
  Forall (fun x => 0 <= x) l -> 0 <= Np.qsum l.
Proof.
  induction 1 as [|x l Hx Hl IH]; simpl; [apply Qle_refl|].
  apply Qle_trans with (0 + 0); [discriminate|]. now apply Qplus_le_compat.
Qed.

Lemma area_weighted_sum_nonneg (A : list Q) (Sigma : list (list Q)) :
  Forall (fun a => 0 <= a) A ->
  Forall (Forall (fun x => 0 <= x)) Sigma ->
  0 <= area_weighted_sum A Sigma.
Proof.
  intros HA. revert Sigma.
  induction HA as [|a A Ha HA IH]; intros Sigma HS; simpl; [apply Qle_refl|].
  destruct HS as [|row Sigma Hrow HS]; [apply Qle_refl|].
  apply Qle_trans with (0 + 0); [discriminate|].
  apply Qplus_le_compat; [|now apply IH].
  apply qsum_nonneg. apply Forall_map.
  eapply Forall_impl; [|exact Hrow]. intros x Hx. simpl.
  now apply Qmult_le_0_compat.
Qed.

(** X16.  With non-negative cell areas and non-negative lost-dust surface
    densities, the total lost mass [M_lostdust] returns is not negative. *)
Theorem M_lostdust_nonnegative
        (s : Frame) (A : list Q) (Sigma : list (list Q)) :
  get_value ["grid"; "A"] (root s) = ok (VArray1 A) ->
  get_value ["lostdust"; "Sigma"] (root s) = ok (VArray2 Sigma) ->
  List.length A = List.length Sigma ->
  Forall (fun a => 0 <= a) A ->
  Forall (Forall (fun x => 0 <= x)) Sigma ->
  exists m, M_lostdust s = ok (VScalar m, s) /\ 0 <= m.
Proof.
  intros HA HS Hlen HA0 HS0. eexists. split.
  - apply M_lostdust_run; eassumption.
  - rewrite qsum_zip_area. now apply area_weighted_sum_nonneg.
Qed.

Lemma M_lostdust_nonnegative_witness :
  exists m, M_lostdust Example.sim_running = ok (VScalar m, Example.sim_running)
            /\ 0 <= m.
Proof.
  apply (@M_lostdust_nonnegative Example.sim_running [3; 5] [[1; 2]; [3; 4]]).
  - vm_compute. reflexivity.
  - vm_compute. reflexivity.
  - reflexivity.
  - repeat constructor; discriminate.
  - repeat constructor; discriminate.
Defined.

(** X17.  [grid.A] and [lostdust.Sigma] must agree on the number of cells: when
    they disagree and neither has exactly one, the product in
    [M_lostdust] does not broadcast and the call raises a value error. *)
Theorem M_lostdust_shape_mismatch
        (s : Frame) (A : list Q) (Sigma : list (list Q)) :
  get_value ["grid"; "A"] (root s) = ok (VArray1 A) ->
  get_value ["lostdust"; "Sigma"] (root s) = ok (VArray2 Sigma) ->
  List.length A <> List.length Sigma ->
  List.length A <> 1%nat ->
  List.length Sigma <> 1%nat ->
  M_lostdust s = inl ValueError.
Proof.
  intros HA HS Hne HA1 HS1. unfold M_lostdust.
  erewrite bind_ok by (apply read_ok; exact HA).
  erewrite bind_ok by (apply read_ok; exact HS).
  apply bind_err. unfold lift, Np.mul, Np.sum_last, Np.binop, Np.bcast1.
  rewrite length_map.
  destruct (Nat.eqb_spec (List.length A) (List.length Sigma)) as [E|_];
    [contradiction|].
  destruct A as [|a [|a' A]]; destruct Sigma as [|r [|r' Sigma]];
    simpl in *; try reflexivity; contradiction.
Qed.

Lemma M_lostdust_shape_mismatch_witness :
  M_lostdust
    (Example.run
       (set_field_value ["grid"; "A"] (VArray1 [3; 5]))
       (Example.run
          (addfield ["lostdust"] "Sigma" (VArray2 [[1]; [2]; [3]]) "" false true)
          Example.sim_lostdust))
  = inl ValueError.
Proof.
  eapply M_lostdust_shape_mismatch
    with (A := [3; 5]) (Sigma := [[1]; [2]; [3]]).
  - vm_compute. reflexivity.
  - vm_compute. reflexivity.
  - discriminate.
  - discriminate.
  - discriminate.
Defined.

(** ** Errors on the way through the FRIED set-up *)

Section SetupErrors.

Variable M_sun : Q.
Variable pow10 : Q -> Q.
Variable resample : ResampleArgs -> result (list (list Q) * Interpolator).

(** X7.  When the resampler raises for the stellar mass and UV flux of the
    simulation, the set-up raises the same error. *)
Theorem setup_ext_pe_FRIED_resampler_error
        (dir : string) (files : list string) (floor : value) (s : Frame)
        (star_M Mstar UV : value) (e : error) :
  get_value ["star"; "M"] (root s) = ok star_M ->
  Np.div star_M (VScalar M_sun) = ok Mstar ->
  get_value (FRIED ++ ["UV_Flux"]) (root s) = ok UV ->
  resample (mkResampleArgs dir files Mstar UV setup_grid_radii
              (setup_grid_Sigma pow10)
              (VArray1 (Np.zip_with Qmult (setup_grid_Sigma pow10)
                                    setup_grid_radii)))
  = inl e ->
  setup_ext_pe_FRIED M_sun pow10 resample dir files floor s = inl e.
Proof.
  intros HM Hdiv HUV Hres. destruct s as [n0 i0 t0].
  unfold FRIED in *. cbn [root app] in *.
  unfold setup_ext_pe_FRIED, FRIED.
  do 5 fwd. apply bind_err. unfold lift. now rewrite Hres.
Qed.

(** X8.  With an empty [grid.r] there is no outermost radius: the set-up
    raises an index error at [sim.grid.r[-1]]. *)
Theorem setup_ext_pe_FRIED_empty_grid
        (dir : string) (files : list string) (floor : value) (s : Frame)
        (star_M Mstar UV : value)
        (tbl : list (list Q)) (itp : Interpolator)
        (dF : string) (uF : option (list string)) (msF : list (string * node)) :
  get_value ["star"; "M"] (root s) = ok star_M ->
  Np.div star_M (VScalar M_sun) = ok Mstar ->
  get FRIED (root s) = ok (NGroup dF uF msF) ->
  get_value (FRIED ++ ["UV_Flux"]) (root s) = ok UV ->
  field_at "_Interpolator" msF = None ->
  resample (mkResampleArgs dir files Mstar UV setup_grid_radii
              (setup_grid_Sigma pow10)
              (VArray1 (Np.zip_with Qmult (setup_grid_Sigma pow10)
                                    setup_grid_radii)))
  = ok (tbl, itp) ->
  get_value ["grid"; "r"] (root s) = ok (VArray1 []) ->
  setup_ext_pe_FRIED M_sun pow10 resample dir files floor s = inl IndexError.
Proof.
  intros HM Hdiv HF HUV Hitp Hres Hr.
  destruct s as [n0 i0 t0]. unfold FRIED in *. cbn [root app] in *.
  apply get_cons_inv in HF. destruct HF as (d & u & ms & cE & -> & HE & HF).
  apply get_cons_inv in HF. destruct HF as (dE & uE & msE & cF & -> & HF & HF').
  apply get_nil_inv in HF'. subst cF.
  unfold setup_ext_pe_FRIED, FRIED.
  do 12 fwd. apply bind_err. reflexivity.
Qed.

(** X18.  A grid of one cell: the host holds its [grid.r] as a scalar, and
    a scalar has no last entry, so the set-up raises an index error at
    [sim.grid.r[-1]]. *)
Theorem setup_ext_pe_FRIED_one_cell_grid
        (dir : string) (files : list string) (floor : value) (s : Frame)
        (star_M Mstar UV : value) (r0 : Q)
        (tbl : list (list Q)) (itp : Interpolator)
        (dF : string) (uF : option (list string)) (msF : list (string * node)) :
  get_value ["star"; "M"] (root s) = ok star_M ->
  Np.div star_M (VScalar M_sun) = ok Mstar ->
  get FRIED (root s) = ok (NGroup dF uF msF) ->
  get_value (FRIED ++ ["UV_Flux"]) (root s) = ok UV ->
  field_at "_Interpolator" msF = None ->
  resample (mkResampleArgs dir files Mstar UV setup_grid_radii
              (setup_grid_Sigma pow10)
              (VArray1 (Np.zip_with Qmult (setup_grid_Sigma pow10)
                                    setup_grid_radii)))
  = ok (tbl, itp) ->
  get_value ["grid"; "r"] (root s) = ok (VScalar r0) ->
  setup_ext_pe_FRIED M_sun pow10 resample dir files floor s = inl IndexError.
Proof.
  intros HM Hdiv HF HUV Hitp Hres Hr.
  destruct s as [n0 i0 t0]. unfold FRIED in *. cbn [root app] in *.
  apply get_cons_inv in HF. destruct HF as (d & u & ms & cE & -> & HE & HF).
  apply get_cons_inv in HF. destruct HF as (dE & uE & msE & cF & -> & HF & HF').
  apply get_nil_inv in HF'. subst cF.
  unfold setup_ext_pe_FRIED, FRIED.
  do 12 fwd. apply bind_err. reflexivity.
Qed.

End SetupErrors.

Lemma setup_ext_pe_FRIED_resampler_error_witness :
  setup_ext_pe_FRIED Example.M_sun Example.pow10
    (fun _ => raise ConfigurationError)
    (default_fried_dir "/opt/epe") default_fried_filenames default_SigmaFloor
    Example.sim_param
  = inl ConfigurationError.
Proof.
  eapply setup_ext_pe_FRIED_resampler_error; vm_compute; reflexivity.
Defined.

Lemma setup_ext_pe_FRIED_empty_grid_witness :
  setup_ext_pe_FRIED Example.M_sun Example.pow10 Example.resample
    (default_fried_dir "/opt/epe") default_fried_filenames default_SigmaFloor
    (Example.run (addfield ["grid"] "r" (VArray1 []) "" false true)
                 Example.sim_param)
  = inl IndexError.
Proof.
  eapply setup_ext_pe_FRIED_empty_grid; vm_compute; reflexivity.
Defined.

Lemma setup_ext_pe_FRIED_one_cell_grid_witness :
  setup_ext_pe_FRIED Example.M_sun Example.pow10 Example.resample
    (default_fried_dir "/opt/epe") default_fried_filenames default_SigmaFloor
    (Example.run (addfield ["grid"] "r" (VScalar 10) "" false true)
                 Example.sim_param)
  = inl IndexError.
Proof.
  eapply setup_ext_pe_FRIED_one_cell_grid; vm_compute; reflexivity.
Defined.
